(** * vt100: a shallow embedding of the terminal emulator

    The screen model and the interpreter primitives of [vt100.go] are
    translated function by function.  Go's [int] is a 64-bit signed
    integer: it is modelled as [Z], and every addition, subtraction and
    multiplication of the source goes through [wrap].  A call either
    returns or does not: [outcome] records a returned value, or the
    reason why the call did not return (the explicit panic of
    [NewVT100], a run-time index or slice fault, a loop that cannot
    leave).  The mutex and the debug log sink carry no terminal state
    and are left out. *)

From Stdlib Require Import ZArith Lia.
From stdpp Require Import base tactics option list.

Open Scope Z_scope.

(** ** Machine integers *)

Definition max_int : Z := 2 ^ 63 - 1.
Definition min_int : Z := - 2 ^ 63.

Definition wrap (z : Z) : Z := (z + 2 ^ 63) mod 2 ^ 64 - 2 ^ 63.

Definition in_int (z : Z) : Prop := min_int <= z <= max_int.

Definition int_add (a b : Z) : Z := wrap (a + b).
Definition int_sub (a b : Z) : Z := wrap (a - b).
Definition int_mul (a b : Z) : Z := wrap (a * b).
(** Go's [/] truncates toward zero. *)
Definition int_div (a b : Z) : Z := wrap (Z.quot a b).

(** ** Calls that may not return *)

Inductive fault : Type :=
| InvalidDim (y x : Z)   (* panic(fmt.Errorf("invalid dim (%d, %d)", y, x)) *)
| OutOfRange             (* run-time panic: index or slice bound out of range *)
| NoReturn.              (* a loop whose exit condition can never become false *)

Inductive outcome (A : Type) : Type :=
| Ret (a : A)
| Panic (f : fault).
Arguments Ret {A} a.
Arguments Panic {A} f.

#[global] Instance outcome_ret : MRet outcome := fun A a => Ret a.
#[global] Instance outcome_bind : MBind outcome := fun A B k m =>
  match m with
  | Ret a => k a
  | Panic f => Panic f
  end.

(** ** Slices *)

Definition len {A} (l : list A) : Z := Z.of_nat (length l).

(** [l[i]] as an expression. *)
Definition index {A} (l : list A) (i : Z) : outcome A :=
  if decide (0 <= i) then
    match l !! Z.to_nat i with
    | Some a => Ret a
    | None => Panic OutOfRange
    end
  else Panic OutOfRange.

(** [l[i] = a]. *)
Definition store {A} (l : list A) (i : Z) (a : A) : outcome (list A) :=
  if decide (0 <= i < len l) then Ret (<[Z.to_nat i := a]> l)
  else Panic OutOfRange.

(** [l[:n]]; the capacity of a slice is taken to be its length. *)
Definition slice_to {A} (l : list A) (n : Z) : outcome (list A) :=
  if decide (0 <= n <= len l) then Ret (take (Z.to_nat n) l)
  else Panic OutOfRange.

(** [make([]T, n)] with the zero value [z] of [T]. *)
Definition make {A} (z : A) (n : Z) : outcome (list A) :=
  if decide (0 <= n) then Ret (replicate (Z.to_nat n) z)
  else Panic OutOfRange.

(** [copy(dst, src)]: the first [min(len dst, len src)] cells. *)
Definition copy {A} (dst src : list A) : list A :=
  take (length dst) src ++ drop (length src) dst.

(** [for i := lo; <n more rounds>; i++ { body }] *)
Fixpoint for_loop {St} (n : nat) (i : Z) (body : Z -> St -> outcome St) (s : St)
  : outcome St :=
  match n with
  | O => Ret s
  | S n' => s' ← body i s; for_loop n' (i + 1) body s'
  end.

(** [for i := lo; i < hi; i++]: the counter stops at [hi], it never wraps. *)
Definition for_below {St} (lo hi : Z) (body : Z -> St -> outcome St) (s : St)
  : outcome St :=
  for_loop (Z.to_nat (hi - lo)) lo body s.

(** [for i := lo; i <= hi; i++]: when [hi] is the largest [int] and the
    loop is entered, [i <= hi] holds for every [i], so the loop runs
    until a body panics or forever. *)
Definition for_upto {St} (lo hi : Z) (body : Z -> St -> outcome St) (s : St)
  : outcome St :=
  if decide (lo <= hi /\ hi = max_int) then Panic NoReturn
  else for_loop (Z.to_nat (hi - lo + 1)) lo body s.

(** ** Data model *)

Definition rune : Type := Z.
Definition space : rune := 32.

Inductive Intensity : Type := Normal | Bold | Faint.

(** [termenv.Color] is an interface: [nil] (the default colour) or one
    of the sixteen [termenv.ANSIColor] values. *)
Inductive Color : Type :=
| NoColor
| ANSIColor (n : Z).

Record Format : Type := mkFormat {
  Reset : bool;
  Fg : Color;
  Bg : Color;
  Intens : Intensity;          (* Go: Intensity *)
  Italic : bool;
  Underline : bool;
  Blink : bool;
  Reverse : bool;
  Conceal : bool;
  CrossOut : bool;
  Overline : bool
}.

(** [Format{}] *)
Definition Format0 : Format :=
  mkFormat false NoColor NoColor Normal false false false false false false false.

Record Cursor : Type := mkCursor {
  Y : Z;
  X : Z;
  F : Format
}.

Definition Cursor0 : Cursor := mkCursor 0 0 Format0.

Record VT100 : Type := mkVT100 {
  Height : Z;
  Width : Z;
  Content : list (list rune);
  Formats : list (list Format);     (* Go: Format *)
  Cur : Cursor;                     (* Go: Cursor *)
  AutoResizeY : bool;
  AutoResizeX : bool;
  savedCursor : Cursor;
  unparsed : list Z;
  maxY : Z
}.

Definition set_Height (h : Z) (v : VT100) : VT100 :=
  mkVT100 h (Width v) (Content v) (Formats v) (Cur v) (AutoResizeY v)
          (AutoResizeX v) (savedCursor v) (unparsed v) (maxY v).
Definition set_Width (w : Z) (v : VT100) : VT100 :=
  mkVT100 (Height v) w (Content v) (Formats v) (Cur v) (AutoResizeY v)
          (AutoResizeX v) (savedCursor v) (unparsed v) (maxY v).
Definition set_Content (c : list (list rune)) (v : VT100) : VT100 :=
  mkVT100 (Height v) (Width v) c (Formats v) (Cur v) (AutoResizeY v)
          (AutoResizeX v) (savedCursor v) (unparsed v) (maxY v).
Definition set_Formats (f : list (list Format)) (v : VT100) : VT100 :=
  mkVT100 (Height v) (Width v) (Content v) f (Cur v) (AutoResizeY v)
          (AutoResizeX v) (savedCursor v) (unparsed v) (maxY v).
Definition set_Cur (c : Cursor) (v : VT100) : VT100 :=
  mkVT100 (Height v) (Width v) (Content v) (Formats v) c (AutoResizeY v)
          (AutoResizeX v) (savedCursor v) (unparsed v) (maxY v).
Definition set_savedCursor (c : Cursor) (v : VT100) : VT100 :=
  mkVT100 (Height v) (Width v) (Content v) (Formats v) (Cur v) (AutoResizeY v)
          (AutoResizeX v) c (unparsed v) (maxY v).
Definition set_unparsed (u : list Z) (v : VT100) : VT100 :=
  mkVT100 (Height v) (Width v) (Content v) (Formats v) (Cur v) (AutoResizeY v)
          (AutoResizeX v) (savedCursor v) u (maxY v).
Definition set_maxY (m : Z) (v : VT100) : VT100 :=
  mkVT100 (Height v) (Width v) (Content v) (Formats v) (Cur v) (AutoResizeY v)
          (AutoResizeX v) (savedCursor v) (unparsed v) m.
Definition set_X (x : Z) (v : VT100) : VT100 :=
  set_Cur (mkCursor (Y (Cur v)) x (F (Cur v))) v.
Definition set_Y (y : Z) (v : VT100) : VT100 :=
  set_Cur (mkCursor y (X (Cur v)) (F (Cur v))) v.

(** ** The grid buffer *)

(** [clear]: only the upper bounds are tested, and the column bound is
    the length of row 0. *)
Definition clear (v : VT100) (y x : Z) : outcome VT100 :=
  if decide (y >= len (Content v)) then Ret v else
  row0 ← index (Content v) 0;
  if decide (x >= len row0) then Ret v else
  row ← index (Content v) y;
  row' ← store row x space;
  content' ← store (Content v) y row';
  frow ← index (Formats v) y;
  frow' ← store frow x Format0;
  formats' ← store (Formats v) y frow';
  Ret (set_Formats formats' (set_Content content' v)).

Definition NewVT100 (y x : Z) : outcome VT100 :=
  if decide (y <= 0 \/ x <= 0) then Panic (InvalidDim y x) else
  content ← make ([] : list rune) y;
  formats ← make ([] : list Format) y;
  let v := mkVT100 y x content formats Cursor0 false false Cursor0 [] (-1) in
  for_below 0 y (fun row v =>
    r ← make (0 : rune) x;
    content' ← store (Content v) row r;
    f ← make Format0 x;
    formats' ← store (Formats v) row f;
    for_below 0 x (fun col v => clear v row col)
              (set_Formats formats' (set_Content content' v))) v.

Definition UsedHeight (v : VT100) : Z := int_add (maxY v) 1.

(** [resize]; the clamp of [maxY] compares [h] with [maxY] itself. *)
Definition resize (v : VT100) (h w : Z) : outcome VT100 :=
  v ← (if decide (h > Height v) then
         let n := int_sub h (Height v) in
         v ← for_below 0 n (fun row v =>
                r ← make (0 : rune) (Width v);
                let v := set_Content (Content v ++ [r]) v in
                f ← make Format0 (Width v);
                let v := set_Formats (Formats v ++ [f]) v in
                for_below 0 (Width v)
                          (fun col v => clear v (int_add (Height v) row) col) v) v;
         Ret (set_Height h v)
       else if decide (h < Height v) then
         content' ← slice_to (Content v) h;
         formats' ← slice_to (Formats v) h;
         Ret (set_Height h (set_Formats formats' (set_Content content' v)))
       else Ret v);
  let v := if decide (h < maxY v) then set_maxY (int_sub h 1) v else v in
  v ← (if decide (w > Width v) then
         v ← for_below 0 (len (Content v)) (fun i v =>
                row ← make (0 : rune) w;
                old ← index (Content v) i;
                content' ← store (Content v) i (copy row old);
                let v := set_Content content' v in
                format ← make Format0 w;
                oldF ← index (Formats v) i;
                formats' ← store (Formats v) i (copy format oldF);
                let v := set_Formats formats' v in
                for_below (Width v) w (fun j v => clear v i j) v) v;
         Ret (set_Width w v)
       else if decide (w < Width v) then
         v ← for_below 0 (len (Content v)) (fun i v =>
                old ← index (Content v) i;
                row ← slice_to old w;
                content' ← store (Content v) i row;
                let v := set_Content content' v in
                oldF ← index (Formats v) i;
                rowF ← slice_to oldF w;
                formats' ← store (Formats v) i rowF;
                Ret (set_Formats formats' v)) v;
         Ret (set_Width w v)
       else Ret v);
  Ret (if decide (X (Cur v) >= Width v) then set_X (int_sub (Width v) 1) v
       else v).

(** [Resize] is [resize] under the lock. *)
Definition Resize (v : VT100) (h w : Z) : outcome VT100 := resize v h w.

Definition advance (v : VT100) : VT100 :=
  let v := set_X (int_add (X (Cur v)) 1) v in
  if decide (X (Cur v) >= Width v /\ AutoResizeX v = false) then
    set_Y (int_add (Y (Cur v)) 1) (set_X 0 v)
  else v.

Definition resizeXIfNeeded (v : VT100) : outcome VT100 :=
  if decide (AutoResizeX v = true /\ int_add (X (Cur v)) 1 >= Width v) then
    resize v (Height v) (int_add (X (Cur v)) 1)
  else Ret v.

(** [scrollOne]: the row handles move up by one and the storage of the
    old first row, blanked, becomes the last row.  The format row is
    reset over the length of the content row.  No two rows share
    storage afterwards when [Height] is the number of rows, which is
    where this list model is exact. *)
Definition scrollOne (v : VT100) : outcome VT100 :=
  first ← index (Content v) 0;
  let content := copy (Content v) (drop 1 (Content v)) in
  first ← for_below 0 (len first) (fun i row => store row i space) first;
  content ← store content (int_sub (Height v) 1) first;
  let v := set_Content content v in
  firstF ← index (Formats v) 0;
  let formats := copy (Formats v) (drop 1 (Formats v)) in
  firstF ← for_below 0 (len first) (fun i row => store row i Format0) firstF;
  formats ← store formats (int_sub (Height v) 1) firstF;
  let v := set_Formats formats v in
  Ret (set_Y (int_sub (Height v) 1) v).

Definition scrollOrResizeYIfNeeded (v : VT100) : outcome VT100 :=
  if decide (Y (Cur v) >= Height v) then
    if AutoResizeY v then resize v (int_add (Y (Cur v)) 1) (Width v)
    else scrollOne v
  else Ret v.

(** [put]: [maxY] is raised to the cursor row before the row is
    brought back into the grid. *)
Definition put (v : VT100) (r : rune) : outcome VT100 :=
  let v := if decide (Y (Cur v) > maxY v) then set_maxY (Y (Cur v)) v else v in
  v ← scrollOrResizeYIfNeeded v;
  v ← resizeXIfNeeded v;
  row ← index (Content v) (Y (Cur v));
  row ← store row (X (Cur v)) r;
  content ← store (Content v) (Y (Cur v)) row;
  let v := set_Content content v in
  rowF ← index (Formats v) (Y (Cur v));
  rowF ← store rowF (X (Cur v)) (F (Cur v));
  formats ← store (Formats v) (Y (Cur v)) rowF;
  let v := set_Formats formats v in
  Ret (advance v).

Definition home (v : VT100) (y x : Z) : VT100 :=
  set_Cur (mkCursor y x (F (Cur v))) v.

(** [eraseDirection] is an [int]; only three values are named. *)
Definition eraseDirection : Type := Z.
Definition eraseForward : eraseDirection := 0.
Definition eraseBack : eraseDirection := 1.
Definition eraseAll : eraseDirection := 2.

Definition eraseRegion (v : VT100) (y1 x1 y2 x2 : Z) : outcome VT100 :=
  let '(y1, y2) := if decide (y1 > y2) then (y2, y1) else (y1, y2) in
  let '(x1, x2) := if decide (x1 > x2) then (x2, x1) else (x1, x2) in
  for_upto y1 y2 (fun y v => for_upto x1 x2 (fun x v => clear v y x) v) v.

Definition eraseColumns (v : VT100) (d : eraseDirection) : outcome VT100 :=
  let y := Y (Cur v) in
  let x := X (Cur v) in
  if decide (d = eraseBack) then eraseRegion v y 0 y x
  else if decide (d = eraseForward) then
    eraseRegion v y x y (int_sub (Width v) 1)
  else if decide (d = eraseAll) then
    eraseRegion v y 0 y (int_sub (Width v) 1)
  else Ret v.

Definition eraseLines (v : VT100) (d : eraseDirection) : outcome VT100 :=
  let y := Y (Cur v) in
  if decide (d = eraseBack) then eraseRegion v 0 0 y (int_sub (Width v) 1)
  else if decide (d = eraseForward) then
    eraseRegion v y 0 (int_sub (Height v) 1) (int_sub (Width v) 1)
  else if decide (d = eraseAll) then
    eraseRegion v 0 0 (int_sub (Height v) 1) (int_sub (Width v) 1)
  else Ret v.

Definition backspace (v : VT100) : VT100 :=
  let v := set_X (int_sub (X (Cur v)) 1) v in
  if decide (X (Cur v) < 0) then
    if decide (Y (Cur v) = 0) then set_X 0 v
    else set_X (int_sub (Width v) 1) (set_Y (int_sub (Y (Cur v)) 1) v)
  else v.

Definition save (v : VT100) : VT100 := set_savedCursor (Cur v) v.

Definition unsave (v : VT100) : VT100 := set_Cur (savedCursor v) v.

(** ** Cells, frame and shape *)

(** The rune and format stored at row [y], column [x], if there is such
    a cell. *)
Definition cell (v : VT100) (y x : Z) : option (rune * Format) :=
  if decide (0 <= y /\ 0 <= x) then
    row ← Content v !! Z.to_nat y;
    r ← row !! Z.to_nat x;
    frow ← Formats v !! Z.to_nat y;
    f ← frow !! Z.to_nat x;
    Some (r, f)
  else None.

Definition blank : rune * Format := (space, Format0).

(** Invariant 1 of the data model: [Height] rows of [Width] cells, runes
    and formats in parallel. *)
Record shape (v : VT100) : Prop := mkShape {
  shape_rows : len (Content v) = Height v;
  shape_frows : len (Formats v) = Height v;
  shape_cols : forall i row, Content v !! i = Some row -> len row = Width v;
  shape_fcols : forall i row, Formats v !! i = Some row -> len row = Width v
}.

(** Everything but the two grids. *)
Definition same_frame (v v' : VT100) : Prop :=
  Height v' = Height v /\ Width v' = Width v /\ Cur v' = Cur v /\
  AutoResizeY v' = AutoResizeY v /\ AutoResizeX v' = AutoResizeX v /\
  savedCursor v' = savedCursor v /\ unparsed v' = unparsed v /\
  maxY v' = maxY v.

(** [v'] is [v] with the cells selected by [P] blanked and nothing else
    touched. *)
Definition erases (P : Z -> Z -> bool) (v v' : VT100) : Prop :=
  same_frame v v' /\ shape v' /\
  forall y x, 0 <= y < Height v -> 0 <= x < Width v ->
    cell v' y x = if P y x then Some blank else cell v y x.

(** ** Commands

    [command.go] (the [Command] type, its [display] methods and
    [Decode]) is not among the sources.  What follows is built from the
    natural-language specification and from [command_test.go]. *)

(** Modelled from the spec: the control bytes "with direct meaning" of
    section 4.1, 0x08, 0x09, 0x0A and 0x0D. *)
Inductive ControlByte : Type := BS | HT | LF | CR.

(** Modelled from the spec: the [Command] variants of section 4.1, a
    printable rune, one of the four control bytes, or a CSI sequence
    with its final byte and its list of parameters, each a number or
    absent.  The private marker is left out: no opcode of section 4.3.3
    reads it. *)
Inductive Command : Type :=
| PutRune (r : rune)
| Control (b : ControlByte)
| Escape (final : Z) (params : list (option Z)).

(** Modelled from the spec: the recoverable errors of section 7 that
    [display] can return, an unsupported command and, for SGR, unknown
    codes. *)
Inductive error : Type :=
| UnsupportedCommand (final : Z)
| UnknownAttributes (codes : list Z).

(** Modelled from the spec: "missing parameters use the default"; the
    [i]-th parameter, or [d] when it is absent. *)
Definition param (ps : list (option Z)) (i : nat) (d : Z) : Z :=
  match ps !! i with
  | Some (Some n) => n
  | _ => d
  end.

(** Modelled from the spec: the parameters of the cursor-motion
    opcodes, "1 when absent or zero". *)
Definition count (ps : list (option Z)) (i : nat) : Z :=
  let n := param ps i 1 in
  if decide (n = 0) then 1 else n.

Definition set_Reset (b : bool) (f : Format) : Format :=
  mkFormat b (Fg f) (Bg f) (Intens f) (Italic f) (Underline f) (Blink f)
           (Reverse f) (Conceal f) (CrossOut f) (Overline f).
Definition set_Fg (c : Color) (f : Format) : Format :=
  mkFormat (Reset f) c (Bg f) (Intens f) (Italic f) (Underline f) (Blink f)
           (Reverse f) (Conceal f) (CrossOut f) (Overline f).
Definition set_Bg (c : Color) (f : Format) : Format :=
  mkFormat (Reset f) (Fg f) c (Intens f) (Italic f) (Underline f) (Blink f)
           (Reverse f) (Conceal f) (CrossOut f) (Overline f).
Definition set_Intens (i : Intensity) (f : Format) : Format :=
  mkFormat (Reset f) (Fg f) (Bg f) i (Italic f) (Underline f) (Blink f)
           (Reverse f) (Conceal f) (CrossOut f) (Overline f).
Definition set_Italic (b : bool) (f : Format) : Format :=
  mkFormat (Reset f) (Fg f) (Bg f) (Intens f) b (Underline f) (Blink f)
           (Reverse f) (Conceal f) (CrossOut f) (Overline f).
Definition set_Underline (b : bool) (f : Format) : Format :=
  mkFormat (Reset f) (Fg f) (Bg f) (Intens f) (Italic f) b (Blink f)
           (Reverse f) (Conceal f) (CrossOut f) (Overline f).
Definition set_Blink (b : bool) (f : Format) : Format :=
  mkFormat (Reset f) (Fg f) (Bg f) (Intens f) (Italic f) (Underline f) b
           (Reverse f) (Conceal f) (CrossOut f) (Overline f).
Definition set_Reverse (b : bool) (f : Format) : Format :=
  mkFormat (Reset f) (Fg f) (Bg f) (Intens f) (Italic f) (Underline f) (Blink f)
           b (Conceal f) (CrossOut f) (Overline f).
Definition set_Conceal (b : bool) (f : Format) : Format :=
  mkFormat (Reset f) (Fg f) (Bg f) (Intens f) (Italic f) (Underline f) (Blink f)
           (Reverse f) b (CrossOut f) (Overline f).
Definition set_CrossOut (b : bool) (f : Format) : Format :=
  mkFormat (Reset f) (Fg f) (Bg f) (Intens f) (Italic f) (Underline f) (Blink f)
           (Reverse f) (Conceal f) b (Overline f).
Definition set_Overline (b : bool) (f : Format) : Format :=
  mkFormat (Reset f) (Fg f) (Bg f) (Intens f) (Italic f) (Underline f) (Blink f)
           (Reverse f) (Conceal f) (CrossOut f) b.

(** Modelled from the spec: one SGR parameter, by the table of section
    4.3.4.  [None] is an unknown code.  The palette entries are
    [termenv.ANSIColor] 0 to 7, the bright ones 8 to 15. *)
Definition attribute (p : Z) (f : Format) : option Format :=
  if decide (p = 0) then Some (set_Reset true Format0)
  else if decide (p = 1) then Some (set_Intens Bold f)
  else if decide (p = 2) then Some (set_Intens Faint f)
  else if decide (p = 3) then Some (set_Italic true f)
  else if decide (p = 4) then Some (set_Underline true f)
  else if decide (p = 5 \/ p = 6) then Some (set_Blink true f)
  else if decide (p = 7) then Some (set_Reverse true f)
  else if decide (p = 8) then Some (set_Conceal true f)
  else if decide (p = 9) then Some (set_CrossOut true f)
  else if decide (p = 22) then Some (set_Intens Normal f)
  else if decide (p = 23) then Some (set_Italic false f)
  else if decide (p = 24) then Some (set_Underline false f)
  else if decide (p = 25) then Some (set_Blink false f)
  else if decide (p = 27) then Some (set_Reverse false f)
  else if decide (p = 28) then Some (set_Conceal false f)
  else if decide (p = 29) then Some (set_CrossOut false f)
  else if decide (30 <= p <= 37) then Some (set_Fg (ANSIColor (p - 30)) f)
  else if decide (p = 39) then Some (set_Fg NoColor f)
  else if decide (40 <= p <= 47) then Some (set_Bg (ANSIColor (p - 40)) f)
  else if decide (p = 49) then Some (set_Bg NoColor f)
  else if decide (p = 53) then Some (set_Overline true f)
  else if decide (p = 55) then Some (set_Overline false f)
  else if decide (90 <= p <= 97) then Some (set_Fg (ANSIColor (p - 90 + 8)) f)
  else if decide (100 <= p <= 107) then Some (set_Bg (ANSIColor (p - 100 + 8)) f)
  else None.

(** Modelled from the spec: the parameters of an SGR sequence are
    consumed left to right, an absent one counting as 0; "unknown codes
    log and continue", so the unknown codes are collected while the
    others are applied. *)
Fixpoint attributes (ps : list (option Z)) (f : Format) : Format * list Z :=
  match ps with
  | [] => (f, [])
  | p :: ps' =>
    let n := default 0 p in
    match attribute n f with
    | Some f' => attributes ps' f'
    | None => let '(f', bad) := attributes ps' f in (f', n :: bad)
    end
  end.

(** Modelled from the spec: SGR on the cursor format; "an empty
    parameter list behaves as [0]".  [Write] logs exactly the errors
    that [display] returns, so the unknown codes are returned as one. *)
Definition updateAttributes (v : VT100) (ps : list (option Z))
  : VT100 * option error :=
  let ps := match ps with [] => [Some 0] | _ => ps end in
  let '(f, bad) := attributes ps (F (Cur v)) in
  (set_Cur (mkCursor (Y (Cur v)) (X (Cur v)) f) v,
   match bad with [] => None | _ => Some (UnknownAttributes bad) end).

(** Modelled from the spec: the distance between tab stops.  The text
    of section 4.3.2 says 8; [TestHorizontalTab] of [command_test.go],
    and the tab scenario of the spec itself, need 4. *)
Definition tabstop : Z := 4.

(** Modelled from the spec: the control bytes of section 4.3.2.  Line
    feed also returns the column to 0, which is what [TestLineFeed] and
    [TestAutoResizeXY] of [command_test.go] observe. *)
Definition control (v : VT100) (b : ControlByte) : VT100 :=
  match b with
  | BS => backspace v
  | HT =>
    let x := int_mul (int_add (int_div (X (Cur v)) tabstop) 1) tabstop in
    let x := if decide (x >= Width v) then int_sub (Width v) 1 else x in
    home v (Y (Cur v)) x
  | LF => home v (int_add (Y (Cur v)) 1) 0
  | CR => home v (Y (Cur v)) 0
  end.

(** Modelled from the spec: the CSI opcodes of section 4.3.3, by final
    byte.  Cursor motion does not clamp.  Any other final byte is
    unsupported: an error is returned and the state is unchanged. *)
Definition escape (v : VT100) (final : Z) (ps : list (option Z))
  : outcome (VT100 * option error) :=
  let y := Y (Cur v) in
  let x := X (Cur v) in
  if decide (final = 65) then                          (* A *)
    Ret (home v (int_sub y (count ps 0)) x, None)
  else if decide (final = 66) then                     (* B *)
    Ret (home v (int_add y (count ps 0)) x, None)
  else if decide (final = 67) then                     (* C *)
    Ret (home v y (int_add x (count ps 0)), None)
  else if decide (final = 68) then                     (* D *)
    Ret (home v y (int_sub x (count ps 0)), None)
  else if decide (final = 72 \/ final = 102) then      (* H, f *)
    Ret (home v (int_sub (count ps 0) 1) (int_sub (count ps 1) 1), None)
  else if decide (final = 74) then                     (* J *)
    v ← eraseLines v (param ps 0 0); Ret (v, None)
  else if decide (final = 75) then                     (* K *)
    v ← eraseColumns v (param ps 0 0); Ret (v, None)
  else if decide (final = 109) then                    (* m *)
    Ret (updateAttributes v ps)
  else if decide (final = 115) then                    (* s *)
    Ret (save v, None)
  else if decide (final = 117) then                    (* u *)
    Ret (unsave v, None)
  else Ret (v, Some (UnsupportedCommand final)).

(** Modelled from the spec: [display], the dispatch of section 4.3. *)
Definition display (v : VT100) (c : Command) : outcome (VT100 * option error) :=
  match c with
  | PutRune r => v ← put v r; Ret (v, None)
  | Control b => Ret (control v b, None)
  | Escape final ps => escape v final ps
  end.

(** [Process] is [display] under the lock. *)
Definition Process (v : VT100) (c : Command) : outcome (VT100 * option error) :=
  display v c.

(** ** The byte stream *)

(** Modelled from the spec: what a call of [Decode] on a buffer
    leaves, a command and the unread bytes, or an error ("need more
    input", a malformed sequence, the end of the input) and the unread
    bytes. *)
Inductive decoded : Type :=
| DecodeOk (c : Command) (rest : list Z)
| DecodeErr (rest : list Z).

Section Writer.
(** [Decode] reading from a [bytes.Buffer] that holds [buf]. *)
Variable Decode : list Z -> decoded.

(** The loop of [Write].  A command takes at least one byte, so
    [length buf] rounds are enough; a decoder that took none would
    keep the loop running. *)
Fixpoint writeLoop (fuel : nat) (v : VT100) (buf : list Z) : outcome VT100 :=
  match buf with
  | [] => Ret v
  | _ :: _ =>
    match Decode buf with
    | DecodeErr rest =>
      Ret (if decide (len rest > 0 /\ len rest < 12) then set_unparsed rest v
           else v)
    | DecodeOk cmd rest =>
      match fuel with
      | O => Panic NoReturn
      | S fuel' =>
        r ← display v cmd;      (* an error is only logged *)
        writeLoop fuel' (fst r) rest
      end
    end
  end.

(** [Write]; the returned count is always [len dt] and the error nil,
    so only the terminal is returned here.  The residual is kept by
    value. *)
Definition Write (v : VT100) (dt : list Z) : outcome VT100 :=
  let '(dt, v) :=
    if decide (len (unparsed v) > 0) then (unparsed v ++ dt, set_unparsed [] v)
    else (dt, v) in
  writeLoop (length dt) v dt.
End Writer.

(** A continuation byte of UTF-8. *)
Definition cont (b : Z) : bool := (128 <=? b) && (b <=? 191).

(** [utf8.RuneError], U+FFFD. *)
Definition RuneError : rune := 65533.

(** [bytes.Buffer.ReadRune] of Go's library: the first UTF-8 encoded
    rune of the buffer and the bytes after it; an invalid or truncated
    encoding yields U+FFFD and takes one byte. *)
Definition ReadRune (buf : list Z) : option (rune * list Z) :=
  match buf with
  | [] => None
  | b0 :: rest =>
    if b0 <? 128 then Some (b0, rest)
    else
      let bad := Some (RuneError, rest) in
      if (194 <=? b0) && (b0 <=? 223) then
        match rest with
        | b1 :: r1 =>
          if cont b1 then Some ((b0 - 192) * 64 + (b1 - 128), r1) else bad
        | _ => bad
        end
      else if (224 <=? b0) && (b0 <=? 239) then
        match rest with
        | b1 :: b2 :: r2 =>
          let lo := if b0 =? 224 then 160 else 128 in
          let hi := if b0 =? 237 then 159 else 191 in
          if (lo <=? b1) && (b1 <=? hi) && cont b2 then
            Some ((b0 - 224) * 4096 + (b1 - 128) * 64 + (b2 - 128), r2)
          else bad
        | _ => bad
        end
      else if (240 <=? b0) && (b0 <=? 244) then
        match rest with
        | b1 :: b2 :: b3 :: r3 =>
          let lo := if b0 =? 240 then 144 else 128 in
          let hi := if b0 =? 244 then 143 else 191 in
          if (lo <=? b1) && (b1 <=? hi) && cont b2 && cont b3 then
            Some ((b0 - 240) * 262144 + (b1 - 128) * 4096
                  + (b2 - 128) * 64 + (b3 - 128), r3)
          else bad
        | _ => bad
        end
      else bad
  end.

(** Modelled from the spec: the parameters of a CSI sequence, "digits
    and semicolons, then a final byte in 0x40-0x7E".  [acc] holds the
    finished parameters, [cur] the one being read, [any] records that a
    digit or a semicolon was seen.  [None]: the input ended first.  Any
    other rune is a decode error; it and what was read before it are
    taken from the buffer (the spec does not say what is). *)
Fixpoint scanParams (buf : list Z) (acc : list (option Z)) (cur : option Z)
         (any : bool) : option decoded :=
  match buf with
  | [] => None
  | b :: rest =>
    if (48 <=? b) && (b <=? 57) then
      scanParams rest acc (Some (default 0 cur * 10 + (b - 48))) true
    else if b =? 59 then scanParams rest (acc ++ [cur]) None true
    else if (64 <=? b) && (b <=? 126) then
      Some (DecodeOk (Escape b (if any then acc ++ [cur] else [])) rest)
    else
      Some (DecodeErr (match ReadRune buf with
                       | Some (_, rest') => rest'
                       | None => rest
                       end))
  end.

(** Modelled from the spec: an escape that is not CSI, "skip until a
    rune in 0x40-0x7E is consumed and emit a best-effort Escape with no
    params". *)
Fixpoint skipEscape (buf : list Z) : option decoded :=
  match buf with
  | [] => None
  | b :: rest =>
    if (64 <=? b) && (b <=? 126) then Some (DecodeOk (Escape b []) rest)
    else skipEscape rest
  end.

(** Modelled from the spec: the decoder of section 4.1 over the bytes
    of a buffer.  On a premature end inside an escape it signals "need
    more input" without consuming the buffered bytes. *)
Definition Decode (buf : list Z) : decoded :=
  match ReadRune buf with
  | None => DecodeErr buf
  | Some (r, rest) =>
    if r =? 8 then DecodeOk (Control BS) rest
    else if r =? 9 then DecodeOk (Control HT) rest
    else if r =? 10 then DecodeOk (Control LF) rest
    else if r =? 13 then DecodeOk (Control CR) rest
    else if r =? 27 then
      match rest with
      | [] => DecodeErr buf
      | b :: rest' =>
        if b =? 91 then default (DecodeErr buf) (scanParams rest' [] None false)
        else default (DecodeErr buf) (skipEscape rest)
      end
    else DecodeOk (PutRune r) rest
  end.

(** ** The vocabulary of the statements *)

(** The rows of a grid under construction: rows below [i] are finished. *)
Definition rows_done {A} (g : list (list A)) (i : nat) (w : nat) (a : A) : Prop :=
  forall k, (k < i)%nat -> g !! k = Some (replicate w a).

(** The terminal with the rune and format of one cell replaced. *)
Definition write_cell (v : VT100) (y x : nat) (r : rune) (f : Format) : VT100 :=
  set_Formats (alter (<[x := f]>) y (Formats v))
    (set_Content (alter (<[x := r]>) y (Content v)) v).

(** The cell at row [r], column [c] lies in the rectangle of corners
    [(y1, x1)] and [(y2, x2)]. *)
Definition in_rect (y1 x1 y2 x2 r c : Z) : bool :=
  (y1 <=? r) && (r <=? y2) && (x1 <=? c) && (c <=? x2).

(** The dimensions are values of type [int]. *)
Definition dims_int (v : VT100) : Prop :=
  Height v <= max_int /\ Width v <= max_int.

(** The cells that [eraseLines] is to blank, by direction. *)
Definition lines_region (d y r c : Z) : bool :=
  if d =? eraseForward then y <=? r
  else if d =? eraseBack then r <=? y
  else true.

(** The cells that [eraseColumns] is to blank, by direction. *)
Definition columns_region (d y x r c : Z) : bool :=
  (r =? y) &&
  (if d =? eraseForward then x <=? c
   else if d =? eraseBack then c <=? x
   else true).

(** A decidable form of [shape], for concrete terminals. *)
Definition shapeb (v : VT100) : bool :=
  (len (Content v) =? Height v) && (len (Formats v) =? Height v) &&
  forallb (fun row => len row =? Width v) (Content v) &&
  forallb (fun row => len row =? Width v) (Formats v).

(** The format [c] of [TestErase]: yellow foreground, bold. *)
Definition TestErase_format : Format :=
  mkFormat false (ANSIColor 3) NoColor Bold false false false false false
           false false.

(** The terminal of [TestErase]: three rows of four cells, "abcd",
    "efgh" and "ijkl", every cell of format [c], the cursor at row 1,
    column 2. *)
Definition TestErase_terminal : VT100 :=
  mkVT100 3 4
    [[97; 98; 99; 100]; [101; 102; 103; 104]; [105; 106; 107; 108]]
    (replicate 3 (replicate 4 TestErase_format))
    (mkCursor 1 2 Format0) false false Cursor0 [] (-1).

(** Two grids with rows of the same lengths at the same places. *)
Definition same_widths {A} (g g' : list (list A)) : Prop :=
  forall k, length <$> (g' !! k) = length <$> (g !! k).

(** Every row of the grid has [w] cells. *)
Definition rows_w {A} (g : list (list A)) (w : Z) : Prop :=
  forall k row, g !! k = Some row -> len row = w.

(** The part of the terminal that no resize, scroll or put changes. *)
Definition same_config (v v' : VT100) : Prop :=
  AutoResizeY v' = AutoResizeY v /\ AutoResizeX v' = AutoResizeX v /\
  savedCursor v' = savedCursor v /\ unparsed v' = unparsed v.

(** The state between the steps of [resize]: the grid has [n] rows, the
    first [i] of width [w1] and the others of width [w2]; the rest is
    as in [v]. *)
Definition resizing (v : VT100) (n : Z) (i : Z) (w1 w2 : Z) (t : VT100) : Prop :=
  same_frame v t /\ len (Content t) = n /\ len (Formats t) = n /\
  (forall k row, Content t !! k = Some row ->
                 len row = if decide (Z.of_nat k < i) then w1 else w2) /\
  (forall k row, Formats t !! k = Some row ->
                 len row = if decide (Z.of_nat k < i) then w1 else w2).

(** The rows before the [i]-th have [w1] cells, the others [w2]. *)
Definition widths_split {A} (g : list (list A)) (i w1 w2 : Z) : Prop :=
  forall k row, g !! k = Some row ->
                len row = if decide (Z.of_nat k < i) then w1 else w2.

(** Nothing but the contents of cells differs between [v] and [v']. *)
Definition cells_only (v v' : VT100) : Prop :=
  same_frame v v' /\ same_widths (Content v) (Content v') /\
  same_widths (Formats v) (Formats v').

(** [clear] can run on row [y] of [t]: the grid has no such row, or
    it has it, with runes and formats, at least as long as row 0. *)
Definition clearable (t : VT100) (y : Z) : Prop :=
  len (Content t) <= y \/
  exists row0 row frow,
    Content t !! 0%nat = Some row0 /\ Content t !! Z.to_nat y = Some row /\
    Formats t !! Z.to_nat y = Some frow /\
    (length row0 <= length row)%nat /\ (length row0 <= length frow)%nat.

(** A change of the cursor or of the saved cursor leaves the grid alone. *)
Definition grid_kept (v v' : VT100) : Prop :=
  Height v' = Height v /\ Width v' = Width v /\ Content v' = Content v /\
  Formats v' = Formats v /\ AutoResizeY v' = AutoResizeY v /\
  AutoResizeX v' = AutoResizeX v /\ unparsed v' = unparsed v /\
  maxY v' = maxY v.

(** The column of a cursor is on the grid, or one past the last column
    when the terminal widens itself on the next rune. *)
Definition column_ok (v : VT100) (c : Cursor) : Prop :=
  0 <= X c <= Width v /\ (X c = Width v -> AutoResizeX v = true).

(** The escapes that set the column from their parameters: CUF, CUB,
    CUP (final bytes C, D, H and f). *)
Definition sets_column (c : Command) : bool :=
  match c with
  | Escape final _ =>
    (final =? 67) || (final =? 68) || (final =? 72) || (final =? 102)
  | _ => false
  end.

(** The run of [Write] over [buf] can be resumed when [b] follows:
    every command decoded from [buf] is decoded in the same way, with
    the same bytes left, when [b] is appended, and the run ends with
    [buf] used up or with a failure of the decoder that has taken
    nothing from the buffer and leaves fewer than 12 bytes, which are
    therefore all stashed. *)
Inductive resumable (Decode : list Z -> decoded) (b : list Z)
  : list Z -> Prop :=
| resumable_done : resumable Decode b []
| resumable_stash buf :
    buf <> [] -> Decode buf = DecodeErr buf -> len buf < 12 ->
    resumable Decode b buf
| resumable_step buf c rest :
    buf <> [] -> Decode buf = DecodeOk c rest ->
    Decode (buf ++ b) = DecodeOk c (rest ++ b) ->
    resumable Decode b rest ->
    resumable Decode b buf.

(** * Proofs *)

Section Basics.
Context {A : Type}.
Implicit Types l : list A.

Lemma wrap_id z : in_int z -> wrap z = z.
Proof.
  unfold in_int, wrap, min_int, max_int. intros H.
  rewrite Z.mod_small; lia.
Qed.

Lemma index_Ret l i a :
  0 <= i -> l !! Z.to_nat i = Some a -> index l i = Ret a.
Proof. intros Hi Hl. unfold index. rewrite decide_True, Hl; auto. Qed.

Lemma index_neg l i : i < 0 -> index l i = Panic OutOfRange.
Proof. intros Hi. unfold index. rewrite decide_False; auto. lia. Qed.

Lemma store_Ret l i a :
  0 <= i < len l -> store l i a = Ret (<[Z.to_nat i := a]> l).
Proof. intros Hi. unfold store. rewrite decide_True; auto. Qed.

Lemma store_neg l i a : i < 0 -> store l i a = Panic OutOfRange.
Proof. intros Hi. unfold store. rewrite decide_False; auto. lia. Qed.

Lemma make_Ret (z : A) n :
  0 <= n -> make z n = Ret (replicate (Z.to_nat n) z).
Proof. intros Hn. unfold make. rewrite decide_True; auto. Qed.

Lemma slice_to_Ret l n :
  0 <= n <= len l -> slice_to l n = Ret (take (Z.to_nat n) l).
Proof. intros Hn. unfold slice_to. rewrite decide_True; auto. Qed.

Lemma lookup_len l i a : l !! i = Some a -> Z.of_nat i < len l.
Proof. intros H. apply lookup_lt_Some in H. unfold len. lia. Qed.

Lemma len_lookup l i :
  0 <= i < len l -> exists a, l !! Z.to_nat i = Some a.
Proof.
  intros H. apply lookup_lt_is_Some_2. unfold len in H. lia.
Qed.

Lemma len_insert l i a : len (<[i := a]> l) = len l.
Proof. unfold len. now rewrite length_insert. Qed.

Lemma len_replicate n (a : A) : len (replicate n a) = Z.of_nat n.
Proof. unfold len. now rewrite length_replicate. Qed.
End Basics.

(** A loop whose body keeps an invariant returns, in a state where the
    invariant holds at the final counter. *)
Lemma for_loop_inv {St} (I : Z -> St -> Prop) body n i (s : St) :
  I i s ->
  (forall j s, i <= j < i + Z.of_nat n -> I j s ->
     exists s', body j s = Ret s' /\ I (j + 1) s') ->
  exists s', for_loop n i body s = Ret s' /\ I (i + Z.of_nat n) s'.
Proof.
  revert i s. induction n as [|n IH]; intros i s Hi Hstep.
  - exists s. simpl. rewrite Z.add_0_r. auto.
  - destruct (Hstep i s) as (s1 & Hb & H1); [lia | assumption |].
    destruct (IH (i + 1) s1) as (s2 & Hl & H2); [assumption | |].
    + intros j s0 Hj. apply Hstep. lia.
    + exists s2. simpl. rewrite Hb. simpl. split; [exact Hl |].
      replace (i + Z.of_nat (S n)) with (i + 1 + Z.of_nat n) by lia.
      exact H2.
Qed.

Lemma for_below_inv {St} (I : Z -> St -> Prop) body lo hi (s : St) :
  lo <= hi -> I lo s ->
  (forall j s, lo <= j < hi -> I j s ->
     exists s', body j s = Ret s' /\ I (j + 1) s') ->
  exists s', for_below lo hi body s = Ret s' /\ I hi s'.
Proof.
  intros Hle H0 Hstep. unfold for_below.
  destruct (for_loop_inv I body (Z.to_nat (hi - lo)) lo s) as (s' & E & H);
    [assumption | | ].
  - intros j s0 Hj. apply Hstep. lia.
  - exists s'. split; [exact E |].
    replace hi with (lo + Z.of_nat (Z.to_nat (hi - lo))) at 1 by lia.
    exact H.
Qed.

Lemma for_upto_inv {St} (I : Z -> St -> Prop) body lo hi (s : St) :
  lo <= hi + 1 -> hi < max_int -> I lo s ->
  (forall j s, lo <= j <= hi -> I j s ->
     exists s', body j s = Ret s' /\ I (j + 1) s') ->
  exists s', for_upto lo hi body s = Ret s' /\ I (hi + 1) s'.
Proof.
  intros Hle Hmax H0 Hstep. unfold for_upto.
  rewrite decide_False by lia.
  destruct (for_loop_inv I body (Z.to_nat (hi - lo + 1)) lo s)
    as (s' & E & H); [assumption | | ].
  - intros j s0 Hj. apply Hstep. lia.
  - exists s'. split; [exact E |].
    replace (hi + 1) with (lo + Z.of_nat (Z.to_nat (hi - lo + 1))) by lia.
    exact H.
Qed.

(** [clear] on a cell that exists. *)
Lemma clear_Ret v y x row0 row frow :
  0 <= y -> 0 <= x ->
  Content v !! 0%nat = Some row0 -> x < len row0 ->
  Content v !! Z.to_nat y = Some row -> x < len row ->
  Formats v !! Z.to_nat y = Some frow -> x < len frow ->
  clear v y x =
  Ret (set_Formats (<[Z.to_nat y := <[Z.to_nat x := Format0]> frow]> (Formats v))
        (set_Content (<[Z.to_nat y := <[Z.to_nat x := space]> row]> (Content v)) v)).
Proof.
  intros Hy Hx H0 Hx0 Hrow Hxr Hfrow Hxf. unfold clear.
  pose proof (lookup_len _ _ _ Hrow) as Hly.
  pose proof (lookup_len _ _ _ Hfrow) as Hlf.
  rewrite decide_False by lia.
  rewrite (index_Ret _ 0 row0) by (auto; lia). simpl.
  rewrite decide_False by lia.
  rewrite (index_Ret _ y row) by auto. simpl.
  rewrite store_Ret by lia. simpl.
  rewrite store_Ret by lia. simpl.
  rewrite (index_Ret _ y frow) by auto. simpl.
  rewrite store_Ret by lia. simpl.
  rewrite store_Ret by lia. reflexivity.
Qed.

(** [clear] past the last row, or past the last column of row 0. *)
Lemma clear_rows_above v y x : y >= len (Content v) -> clear v y x = Ret v.
Proof. intros H. unfold clear. rewrite decide_True; auto. Qed.

Lemma clear_cols_above v y x row0 :
  Content v !! 0%nat = Some row0 -> x >= len row0 -> clear v y x = Ret v.
Proof.
  intros H0 Hx. unfold clear. destruct (decide (y >= len (Content v))); auto.
  rewrite (index_Ret _ 0 row0) by (auto; lia). simpl.
  rewrite decide_True; auto.
Qed.

(** Split the conjunctions of a goal without unfolding definitions. *)
Ltac splits := repeat match goal with |- _ /\ _ => split end.

(** ** Construction *)

Lemma replicate_intro {A} (l : list A) n a :
  length l = n -> (forall c, (c < n)%nat -> l !! c = Some a) ->
  l = replicate n a.
Proof.
  intros Hlen Hall. apply list_eq. intros c.
  destruct (decide (c < n)%nat) as [Hc|Hc].
  - rewrite Hall by assumption. symmetry. now apply lookup_replicate_2.
  - rewrite (lookup_ge_None_2 l c) by lia.
    symmetry. apply lookup_replicate_None. lia.
Qed.

Lemma same_frame_refl v : same_frame v v.
Proof. unfold same_frame. tauto. Qed.

Lemma same_frame_trans v1 v2 v3 :
  same_frame v1 v2 -> same_frame v2 v3 -> same_frame v1 v3.
Proof. unfold same_frame. intuition congruence. Qed.

Lemma same_frame_grids v c f :
  same_frame v (set_Formats f (set_Content c v)).
Proof. unfold same_frame. simpl. tauto. Qed.

Lemma NewVT100_row (v0 s : VT100) (h w : nat) (i : Z) :
  0 <= i < Z.of_nat h -> (0 < w)%nat ->
  same_frame v0 s ->
  length (Content s) = h -> length (Formats s) = h ->
  rows_done (Content s) (Z.to_nat i) w space ->
  rows_done (Formats s) (Z.to_nat i) w Format0 ->
  exists s',
    (r ← make (0 : rune) (Z.of_nat w);
     content' ← store (Content s) i r;
     f ← make Format0 (Z.of_nat w);
     formats' ← store (Formats s) i f;
     for_below 0 (Z.of_nat w) (fun col v => clear v i col)
               (set_Formats formats' (set_Content content' s))) = Ret s' /\
    same_frame v0 s' /\
    length (Content s') = h /\ length (Formats s') = h /\
    rows_done (Content s') (Z.to_nat (i + 1)) w space /\
    rows_done (Formats s') (Z.to_nat (i + 1)) w Format0.
Proof.
  intros Hi Hw Hfr Hlc Hlf Hc Hf.
  rewrite make_Ret by lia. simpl.
  rewrite store_Ret by (unfold len; lia). simpl.
  rewrite make_Ret by lia. simpl.
  rewrite store_Ret by (unfold len; lia). simpl.
  rewrite !Nat2Z.id.
  set (s1 := set_Formats _ _).
  pose (I := fun (j : Z) (t : VT100) =>
    same_frame v0 t /\ length (Content t) = h /\ length (Formats t) = h /\
    rows_done (Content t) (Z.to_nat i) w space /\
    rows_done (Formats t) (Z.to_nat i) w Format0 /\
    (exists row, Content t !! Z.to_nat i = Some row /\ length row = w /\
       forall c, (c < Z.to_nat j)%nat -> row !! c = Some space) /\
    Formats t !! Z.to_nat i = Some (replicate w Format0)).
  destruct (for_below_inv I (fun col v => clear v i col) 0 (Z.of_nat w) s1)
    as (s' & E & Hs'); [lia | | | ].
  - (* the fresh row *)
    subst s1 I. simpl. splits.
    + eapply same_frame_trans; [exact Hfr | apply same_frame_grids].
    + now rewrite length_insert.
    + now rewrite length_insert.
    + intros k Hk. rewrite list_lookup_insert_ne by lia. now apply Hc.
    + intros k Hk. rewrite list_lookup_insert_ne by lia. now apply Hf.
    + exists (replicate w 0). rewrite list_lookup_insert_eq by lia.
      split; [reflexivity |]. rewrite length_replicate. split; [reflexivity |].
      intros c Hc0. simpl in Hc0. lia.
    + rewrite list_lookup_insert_eq by lia. reflexivity.
  - (* one column *)
    intros j t Hj (Ht & Htc & Htf & Hdc & Hdf & (row & Hrow & Hlen & Hsp) & Hfrow).
    assert (exists row0, Content t !! 0%nat = Some row0 /\ length row0 = w)
      as (row0 & Hrow0 & Hlen0).
    { destruct (decide (i = 0)) as [->|Hne].
      - exists row. auto.
      - exists (replicate w space). split; [apply Hdc; lia |].
        apply length_replicate. }
    rewrite (clear_Ret t i j row0 row (replicate w Format0));
      try assumption; try lia;
      try (unfold len; rewrite ?length_replicate; lia).
    eexists. split; [reflexivity |]. subst I. simpl. splits.
    + eapply same_frame_trans; [exact Ht | apply same_frame_grids].
    + now rewrite length_insert.
    + now rewrite length_insert.
    + intros k Hk. rewrite list_lookup_insert_ne by lia. now apply Hdc.
    + intros k Hk. rewrite list_lookup_insert_ne by lia. now apply Hdf.
    + exists (<[Z.to_nat j := space]> row).
      rewrite list_lookup_insert_eq by lia.
      split; [reflexivity |]. rewrite length_insert. split; [assumption |].
      intros c Hc0. destruct (decide (c = Z.to_nat j)) as [->|Hne].
      * apply list_lookup_insert_eq. lia.
      * rewrite list_lookup_insert_ne by lia. apply Hsp. lia.
    + rewrite insert_replicate. rewrite list_lookup_insert_eq by lia.
      reflexivity.
  - exists s'. split; [exact E |].
    destruct Hs' as (Ht & Htc & Htf & Hdc & Hdf & (row & Hrow & Hlen & Hsp) & Hfrow).
    splits; try assumption.
    + intros k Hk. destruct (decide (k = Z.to_nat i)) as [->|Hne].
      * rewrite Hrow. f_equal. apply replicate_intro; [assumption |].
        intros c Hc0. apply Hsp. lia.
      * apply Hdc. lia.
    + intros k Hk. destruct (decide (k = Z.to_nat i)) as [->|Hne].
      * exact Hfrow.
      * apply Hdf. lia.
Qed.

(** C9. [NewVT100 y x] panics with its "invalid dim" error exactly when
    [y <= 0] or [x <= 0]; for strictly positive dimensions it returns a
    terminal of [y] rows of [x] cells, each holding the rune [' '] with
    the default format, with [maxY = -1], that is a used height of 0. *)
Theorem NewVT100_spec (y x : Z) :
  (NewVT100 y x = Panic (InvalidDim y x) <-> y <= 0 \/ x <= 0) /\
  (0 < y -> 0 < x ->
   exists v, NewVT100 y x = Ret v /\
     Height v = y /\ Width v = x /\
     Content v = replicate (Z.to_nat y) (replicate (Z.to_nat x) space) /\
     Formats v = replicate (Z.to_nat y) (replicate (Z.to_nat x) Format0) /\
     (forall r c, 0 <= r < y -> 0 <= c < x -> cell v r c = Some blank) /\
     maxY v = -1 /\ UsedHeight v = 0).
Proof.
  assert (Hpos : 0 < y -> 0 < x ->
   exists v, NewVT100 y x = Ret v /\
     Height v = y /\ Width v = x /\
     Content v = replicate (Z.to_nat y) (replicate (Z.to_nat x) space) /\
     Formats v = replicate (Z.to_nat y) (replicate (Z.to_nat x) Format0) /\
     maxY v = -1).
  { intros Hy Hx. unfold NewVT100.
    rewrite decide_False by lia.
    rewrite (make_Ret (@nil rune) y) by lia. simpl.
    rewrite (make_Ret (@nil Format) y) by lia. simpl.
    set (v0 := mkVT100 _ _ _ _ _ _ _ _ _ _).
    pose (I := fun (i : Z) (t : VT100) =>
      same_frame v0 t /\ length (Content t) = Z.to_nat y /\
      length (Formats t) = Z.to_nat y /\
      rows_done (Content t) (Z.to_nat i) (Z.to_nat x) space /\
      rows_done (Formats t) (Z.to_nat i) (Z.to_nat x) Format0).
    match goal with |- exists v, for_below 0 y ?body v0 = _ /\ _ =>
      destruct (for_below_inv I body 0 y v0) as (s' & E & Hs')
    end; [lia | | | ].
    - subst I v0. simpl. splits; try apply length_replicate.
      + apply same_frame_refl.
      + intros k Hk. simpl in Hk. lia.
      + intros k Hk. simpl in Hk. lia.
    - intros i t Hi (Ht & Hlc & Hlf & Hdc & Hdf).
      destruct (NewVT100_row v0 t (Z.to_nat y) (Z.to_nat x) i)
        as (s' & E & H1 & H2 & H3 & H4 & H5); try assumption; try lia.
      assert (Width t = x) as Hw by (destruct Ht as (_ & Hw & _); exact Hw).
      exists s'. split.
      + rewrite <- E. rewrite !Z2Nat.id by lia. reflexivity.
      + subst I. simpl. auto.
    - exists s'. split; [exact E |].
      destruct Hs' as ((HH & HW & _ & _ & _ & _ & _ & HM) & Hlc & Hlf & Hdc & Hdf).
      subst v0. simpl in *. splits; try assumption.
      + apply replicate_intro; assumption.
      + apply replicate_intro; assumption. }
  split.
  - split.
    + intros HP. destruct (decide (y <= 0 \/ x <= 0)) as [|Hn]; [assumption |].
      destruct Hpos as (v & E & _); [lia | lia |]. congruence.
    + intros Hd. unfold NewVT100. rewrite decide_True; auto.
  - intros Hy Hx. destruct (Hpos Hy Hx) as (v & E & HH & HW & HC & HF & HM).
    exists v. splits; try assumption.
    + intros r c Hr Hc0. unfold cell. rewrite decide_True by lia.
      rewrite HC, HF.
      rewrite !lookup_replicate_2 by lia. simpl.
      rewrite !lookup_replicate_2 by lia. reflexivity.
    + unfold UsedHeight, int_add. rewrite HM. reflexivity.
Qed.

Lemma NewVT100_spec_witness :
  exists v, NewVT100 2 3 = Ret v /\ Height v = 2 /\ Width v = 3 /\
            cell v 1 2 = Some blank /\ UsedHeight v = 0.
Proof.
  destruct (NewVT100_spec 2 3) as (_ & H).
  destruct H as (v & E & HH & HW & _ & _ & HC & _ & HU); [lia | lia |].
  exists v. splits; try assumption. apply HC; lia.
Defined.

(** ** Writing one cell *)

Lemma insert_row_alter {A} (g : list (list A)) y x a row :
  g !! y = Some row -> <[y := <[x := a]> row]> g = alter (<[x := a]>) y g.
Proof.
  intros Hrow. apply list_eq. intros k.
  rewrite list_lookup_alter. destruct (decide (y = k)) as [<-|Hne].
  - rewrite Hrow. simpl. apply list_lookup_insert_eq.
    now apply lookup_lt_Some in Hrow.
  - now apply list_lookup_insert_ne.
Qed.

Lemma write_cell_frame v y x r f : same_frame v (write_cell v y x r f).
Proof. apply same_frame_grids. Qed.

Lemma write_cell_shape v y x r f : shape v -> shape (write_cell v y x r f).
Proof.
  intros [H1 H2 H3 H4]. unfold write_cell.
  split; simpl; unfold len in *.
  - now rewrite length_alter.
  - now rewrite length_alter.
  - intros i row. rewrite list_lookup_alter.
    destruct (decide (y = i)) as [<-|Hne]; [| apply H3].
    destruct (Content v !! y) as [row'|] eqn:E; simpl; [| discriminate].
    intros [= <-]. rewrite length_insert. eapply H3; eauto.
  - intros i row. rewrite list_lookup_alter.
    destruct (decide (y = i)) as [<-|Hne]; [| apply H4].
    destruct (Formats v !! y) as [row'|] eqn:E; simpl; [| discriminate].
    intros [= <-]. rewrite length_insert. eapply H4; eauto.
Qed.

Lemma shape_row v y :
  shape v -> 0 <= y < Height v ->
  exists row frow, Content v !! Z.to_nat y = Some row /\
                   Formats v !! Z.to_nat y = Some frow /\
                   len row = Width v /\ len frow = Width v.
Proof.
  intros [H1 H2 H3 H4] Hy.
  destruct (len_lookup (Content v) y) as (row & Hrow); [lia |].
  destruct (len_lookup (Formats v) y) as (frow & Hfrow); [lia |].
  exists row, frow. splits; eauto.
Qed.

Lemma cell_in_grid v y x :
  shape v -> 0 <= y < Height v -> 0 <= x < Width v ->
  exists r f, cell v y x = Some (r, f).
Proof.
  intros Hs Hy Hx.
  destruct (shape_row v y Hs Hy) as (row & frow & Hrow & Hfrow & Hl & Hlf).
  destruct (len_lookup row x) as (r & Hr); [lia |].
  destruct (len_lookup frow x) as (f & Hf); [lia |].
  exists r, f. unfold cell. rewrite decide_True by lia.
  rewrite Hrow. simpl. rewrite Hr. simpl. rewrite Hfrow. simpl.
  rewrite Hf. reflexivity.
Qed.

Lemma cell_write_cell v y0 x0 r f y x :
  shape v -> 0 <= y0 < Height v -> 0 <= x0 < Width v ->
  0 <= y -> 0 <= x ->
  cell (write_cell v (Z.to_nat y0) (Z.to_nat x0) r f) y x =
  if (y =? y0) && (x =? x0) then Some (r, f) else cell v y x.
Proof.
  intros Hs Hy0 Hx0 Hy Hx.
  destruct (shape_row v y0 Hs Hy0) as (row & frow & Hrow & Hfrow & Hl & Hlf).
  unfold cell, write_cell. simpl. rewrite !decide_True by lia.
  rewrite !list_lookup_alter.
  destruct (Z.eqb_spec y y0) as [->|Hne].
  - rewrite !decide_True by reflexivity. rewrite Hrow, Hfrow. simpl.
    destruct (Z.eqb_spec x x0) as [->|Hnx]; simpl.
    + rewrite !list_lookup_insert_eq by (unfold len in *; lia). reflexivity.
    + rewrite !list_lookup_insert_ne by lia. reflexivity.
  - rewrite !decide_False by lia. reflexivity.
Qed.

(** ** Erasing *)

Lemma erases_none (P : Z -> Z -> bool) v :
  shape v ->
  (forall y x, 0 <= y < Height v -> 0 <= x < Width v -> P y x = false) ->
  erases P v v.
Proof.
  intros Hs HP. split; [apply same_frame_refl |]. split; [assumption |].
  intros y x Hy Hx. now rewrite HP.
Qed.

Lemma erases_then (P Q R : Z -> Z -> bool) v1 v2 v3 :
  erases P v1 v2 -> erases Q v2 v3 ->
  (forall y x, 0 <= y < Height v1 -> 0 <= x < Width v1 ->
               R y x = P y x || Q y x) ->
  erases R v1 v3.
Proof.
  intros (F1 & S1 & C1) (F2 & S2 & C2) HR.
  split; [eapply same_frame_trans; eassumption |]. split; [assumption |].
  intros y x Hy Hx.
  destruct F1 as (HH & HW & _).
  rewrite C2 by lia. rewrite C1 by lia. rewrite HR by lia.
  destruct (P y x), (Q y x); reflexivity.
Qed.

(** [clear] at coordinates that are not negative blanks the cell if the
    grid has it and changes nothing otherwise. *)
Lemma clear_erases v y x :
  shape v -> 0 <= y -> 0 <= x ->
  exists v', clear v y x = Ret v' /\
             erases (fun r c => (r =? y) && (c =? x)) v v'.
Proof.
  intros Hs Hy Hx.
  destruct (decide (y >= len (Content v))) as [Hge|Hlt].
  { exists v. split; [now apply clear_rows_above |].
    apply erases_none; [assumption |]. intros r c Hr Hc.
    destruct Hs as [H1 _ _ _]. destruct (Z.eqb_spec r y); [lia | reflexivity]. }
  assert (0 <= y < Height v) as Hy' by (destruct Hs as [H1 _ _ _]; lia).
  destruct (shape_row v 0 Hs) as (row0 & _ & Hrow0 & _ & Hl0 & _); [lia |].
  destruct (decide (x >= Width v)) as [Hxge|Hxlt].
  { exists v. split; [apply (clear_cols_above v y x row0); [assumption | lia] |].
    apply erases_none; [assumption |]. intros r c Hr Hc.
    destruct (Z.eqb_spec c x); [lia |]. apply andb_false_r. }
  destruct (shape_row v y Hs Hy') as (row & frow & Hrow & Hfrow & Hl & Hlf).
  exists (write_cell v (Z.to_nat y) (Z.to_nat x) space Format0). split.
  - rewrite (clear_Ret v y x row0 row frow) by (assumption || lia).
    unfold write_cell.
    rewrite (insert_row_alter (Formats v) _ _ _ frow Hfrow).
    rewrite (insert_row_alter (Content v) _ _ _ row Hrow). reflexivity.
  - split; [apply write_cell_frame |]. split; [now apply write_cell_shape |].
    intros r c Hr Hc. apply cell_write_cell; (assumption || lia).
Qed.

Lemma erases_shape P v v' : erases P v v' -> shape v'.
Proof. now intros (_ & S & _). Qed.

Lemma erases_dims P v v' :
  erases P v v' -> Height v' = Height v /\ Width v' = Width v.
Proof. intros ((H & W & _) & _). auto. Qed.

(** One row of [eraseRegion]: the inner loop. *)
Lemma erase_row v y x1 x2 :
  shape v -> 0 <= y -> 0 <= x1 <= x2 -> x2 < max_int ->
  exists v', for_upto x1 x2 (fun x v => clear v y x) v = Ret v' /\
             erases (fun r c => (r =? y) && (x1 <=? c) && (c <=? x2)) v v'.
Proof.
  intros Hs Hy Hx Hmax.
  pose (I := fun (j : Z) (t : VT100) =>
    erases (fun r c => (r =? y) && (x1 <=? c) && (c <? j)) v t).
  destruct (for_upto_inv I (fun x v => clear v y x) x1 x2 v)
    as (v' & E & Hv'); [lia | assumption | | | ].
  - apply erases_none; [assumption |]. intros r c _ _.
    destruct (Z.leb_spec x1 c), (Z.ltb_spec c x1); try lia;
      now rewrite ?andb_false_r.
  - intros j t Hj Ht.
    destruct (clear_erases t y j) as (t' & Ec & Ht');
      [eapply erases_shape; eassumption | lia | lia |].
    exists t'. split; [exact Ec |].
    eapply erases_then; [exact Ht | exact Ht' |].
    intros r c _ _. simpl.
    destruct (Z.eqb_spec r y), (Z.leb_spec x1 c), (Z.ltb_spec c (j + 1)),
      (Z.ltb_spec c j), (Z.eqb_spec c j); simpl; try reflexivity; lia.
  - exists v'. split; [exact E |].
    eapply erases_then; [exact Hv' | apply erases_none | ].
    + eapply erases_shape; eassumption.
    + intros; reflexivity.
    + intros r c _ _. simpl. rewrite orb_false_r.
      destruct (Z.ltb_spec c (x2 + 1)), (Z.leb_spec c x2); try reflexivity; lia.
Qed.

(** [eraseRegion] on a rectangle without negative coordinates, and
    whose upper corner is below the largest [int]: it returns, and
    exactly the cells of the rectangle that the grid has are blanked. *)
Lemma eraseRegion_erases v y1 x1 y2 x2 :
  shape v ->
  0 <= y1 -> 0 <= y2 -> 0 <= x1 -> 0 <= x2 ->
  y1 < max_int -> y2 < max_int -> x1 < max_int -> x2 < max_int ->
  exists v', eraseRegion v y1 x1 y2 x2 = Ret v' /\
    erases (in_rect (Z.min y1 y2) (Z.min x1 x2) (Z.max y1 y2) (Z.max x1 x2))
           v v'.
Proof.
  intros Hs Hy1 Hy2 Hx1 Hx2 My1 My2 Mx1 Mx2. unfold eraseRegion.
  set (ya := Z.min y1 y2). set (yb := Z.max y1 y2).
  set (xa := Z.min x1 x2). set (xb := Z.max x1 x2).
  assert ((if decide (y1 > y2) then (y2, y1) else (y1, y2)) = (ya, yb)) as ->.
  { subst ya yb. destruct (decide (y1 > y2)); f_equal; lia. }
  assert ((if decide (x1 > x2) then (x2, x1) else (x1, x2)) = (xa, xb)) as ->.
  { subst xa xb. destruct (decide (x1 > x2)); f_equal; lia. }
  assert (0 <= ya <= yb /\ yb < max_int /\ 0 <= xa <= xb /\ xb < max_int)
    as (Hya & Hyb & Hxa & Hxb) by (subst ya yb xa xb; lia).
  clearbody ya yb xa xb.
  pose (I := fun (j : Z) (t : VT100) =>
    erases (fun r c => (ya <=? r) && (r <? j) && (xa <=? c) && (c <=? xb)) v t).
  destruct (for_upto_inv I
              (fun y v => for_upto xa xb (fun x v => clear v y x) v) ya yb v)
    as (v' & E & Hv'); [lia | assumption | | | ].
  - apply erases_none; [assumption |]. intros r c _ _.
    destruct (Z.leb_spec ya r), (Z.ltb_spec r ya); try lia; reflexivity.
  - intros j t Hj Ht.
    destruct (erase_row t j xa xb) as (t' & Er & Ht');
      [eapply erases_shape; eassumption | lia | lia | lia |].
    exists t'. split; [exact Er |].
    eapply erases_then; [exact Ht | exact Ht' |].
    intros r c _ _. simpl.
    destruct (Z.leb_spec ya r), (Z.ltb_spec r (j + 1)), (Z.ltb_spec r j),
      (Z.eqb_spec r j), (Z.leb_spec xa c), (Z.leb_spec c xb);
      simpl; try reflexivity; lia.
  - exists v'. split; [exact E |].
    eapply erases_then; [exact Hv' | apply erases_none | ].
    + eapply erases_shape; eassumption.
    + intros; reflexivity.
    + intros r c _ _. unfold in_rect. simpl. rewrite orb_false_r.
      destruct (Z.ltb_spec r (yb + 1)), (Z.leb_spec r yb); try reflexivity; lia.
Qed.

Lemma erases_ext (P Q : Z -> Z -> bool) v v' :
  erases P v v' ->
  (forall y x, 0 <= y < Height v -> 0 <= x < Width v -> Q y x = P y x) ->
  erases Q v v'.
Proof.
  intros (Fr & Sh & Ce) HQ. split; [assumption |]. split; [assumption |].
  intros y x Hy Hx. rewrite HQ by assumption. now apply Ce.
Qed.

Lemma int_sub_1 z : 0 <= z <= max_int -> int_sub z 1 = z - 1.
Proof.
  intros Hz. unfold int_sub. apply wrap_id.
  unfold in_int, min_int, max_int in *. lia.
Qed.

(** Decide the integer tests of a goal one by one, then conclude by
    arithmetic. *)
Ltac split_test :=
  match goal with
  | |- context [?a <=? ?b] => destruct (Z.leb_spec a b)
  | |- context [?a <? ?b] => destruct (Z.ltb_spec a b)
  | |- context [?a =? ?b] => destruct (Z.eqb_spec a b)
  end.

Ltac bool_lia := repeat split_test; simpl; try reflexivity; try lia.

Lemma eraseLines_erases v d :
  shape v -> dims_int v -> 0 < Width v ->
  0 <= Y (Cur v) < Height v -> 0 <= d <= 2 ->
  exists v', eraseLines v d = Ret v' /\
             erases (lines_region d (Y (Cur v))) v v'.
Proof.
  intros Hs (HH & HW) Hw Hy Hd. unfold eraseLines.
  rewrite !int_sub_1 by lia.
  unfold eraseBack, eraseForward, eraseAll.
  destruct (decide (d = 1)) as [->|H1];
    [| destruct (decide (d = 0)) as [->|H0];
       [| destruct (decide (d = 2)) as [->|H2]; [| lia]]].
  - destruct (eraseRegion_erases v 0 0 (Y (Cur v)) (Width v - 1))
      as (v' & E & He); try assumption; try lia; try (unfold max_int; lia).
    exists v'. split; [exact E |]. eapply erases_ext; [exact He |].
    intros r c Hr Hc. unfold lines_region, in_rect, eraseForward, eraseBack.
    bool_lia.
  - destruct (eraseRegion_erases v (Y (Cur v)) 0 (Height v - 1) (Width v - 1))
      as (v' & E & He); try assumption; try lia; try (unfold max_int; lia).
    exists v'. split; [exact E |]. eapply erases_ext; [exact He |].
    intros r c Hr Hc. unfold lines_region, in_rect, eraseForward, eraseBack.
    bool_lia.
  - destruct (eraseRegion_erases v 0 0 (Height v - 1) (Width v - 1))
      as (v' & E & He); try assumption; try lia; try (unfold max_int; lia).
    exists v'. split; [exact E |]. eapply erases_ext; [exact He |].
    intros r c Hr Hc. unfold lines_region, in_rect, eraseForward, eraseBack.
    bool_lia.
Qed.

Lemma eraseColumns_erases v d :
  shape v -> dims_int v ->
  0 <= Y (Cur v) < Height v -> 0 <= X (Cur v) < Width v -> 0 <= d <= 2 ->
  exists v', eraseColumns v d = Ret v' /\
             erases (columns_region d (Y (Cur v)) (X (Cur v))) v v'.
Proof.
  intros Hs (HH & HW) Hy Hx Hd. unfold eraseColumns.
  rewrite !int_sub_1 by lia.
  unfold eraseBack, eraseForward, eraseAll.
  destruct (decide (d = 1)) as [->|H1];
    [| destruct (decide (d = 0)) as [->|H0];
       [| destruct (decide (d = 2)) as [->|H2]; [| lia]]].
  - destruct (eraseRegion_erases v (Y (Cur v)) 0 (Y (Cur v)) (X (Cur v)))
      as (v' & E & He); try assumption; try lia; try (unfold max_int; lia).
    exists v'. split; [exact E |]. eapply erases_ext; [exact He |].
    intros r c Hr Hc. unfold columns_region, in_rect, eraseForward, eraseBack.
    bool_lia.
  - destruct (eraseRegion_erases v (Y (Cur v)) (X (Cur v)) (Y (Cur v))
                                 (Width v - 1))
      as (v' & E & He); try assumption; try lia; try (unfold max_int; lia).
    exists v'. split; [exact E |]. eapply erases_ext; [exact He |].
    intros r c Hr Hc. unfold columns_region, in_rect, eraseForward, eraseBack.
    bool_lia.
  - destruct (eraseRegion_erases v (Y (Cur v)) 0 (Y (Cur v)) (Width v - 1))
      as (v' & E & He); try assumption; try lia; try (unfold max_int; lia).
    exists v'. split; [exact E |]. eapply erases_ext; [exact He |].
    intros r c Hr Hc. unfold columns_region, in_rect, eraseForward, eraseBack.
    bool_lia.
Qed.

Lemma shapeb_shape v : shapeb v = true -> shape v.
Proof.
  unfold shapeb. rewrite !andb_true_iff, !forallb_forall, !Z.eqb_eq.
  intros (((H1 & H2) & H3) & H4). split; try assumption.
  - intros i row Hrow. apply Z.eqb_eq, H3.
    apply list_elem_of_In, list_elem_of_lookup. eauto.
  - intros i row Hrow. apply Z.eqb_eq, H4.
    apply list_elem_of_In, list_elem_of_lookup. eauto.
Qed.

Lemma cell_outside v y x :
  shape v -> ~ (0 <= y < Height v /\ 0 <= x < Width v) -> cell v y x = None.
Proof.
  intros [H1 H2 H3 H4] Hout. unfold cell.
  destruct (decide (0 <= y /\ 0 <= x)) as [[Hy Hx]|]; [| reflexivity].
  destruct (Content v !! Z.to_nat y) as [row|] eqn:Erow; [| reflexivity].
  simpl. pose proof (lookup_len _ _ _ Erow) as Hl.
  pose proof (H3 _ _ Erow) as Hw.
  rewrite (lookup_ge_None_2 row) by (unfold len in *; lia). reflexivity.
Qed.

(** C4, as amended.  On a terminal of the right shape [clear y x]
    blanks the cell at [(y, x)] and nothing else when [0 <= y < Height]
    and [0 <= x < Width]; it changes nothing when [y >= Height], or
    when [x >= Width] and the grid has a row; and it panics with an
    index out of range when a coordinate is negative and neither is
    past its upper bound.  [eraseRegion] returns for every rectangle
    whose corners are not negative (and below the largest [int]),
    blanking the cells of the rectangle that the grid has. *)
Theorem clear_spec v y x :
  shape v ->
  (0 <= y < Height v -> 0 <= x < Width v ->
   exists v', clear v y x = Ret v' /\ same_frame v v' /\ shape v' /\
     cell v' y x = Some blank /\
     forall r c, (r, c) <> (y, x) -> cell v' r c = cell v r c) /\
  (y >= Height v \/ (0 < Height v /\ x >= Width v) -> clear v y x = Ret v) /\
  (y < 0 \/ x < 0 -> y < Height v -> x < Width v ->
   clear v y x = Panic OutOfRange) /\
  (forall y1 x1 y2 x2,
     0 <= y1 < max_int -> 0 <= x1 < max_int ->
     0 <= y2 < max_int -> 0 <= x2 < max_int ->
     exists v', eraseRegion v y1 x1 y2 x2 = Ret v' /\ same_frame v v' /\
       shape v' /\
       forall r c, 0 <= r < Height v -> 0 <= c < Width v ->
         cell v' r c =
         if in_rect (Z.min y1 y2) (Z.min x1 x2) (Z.max y1 y2) (Z.max x1 x2) r c
         then Some blank else cell v r c).
Proof.
  intros Hs. splits.
  - intros Hy Hx.
    destruct (clear_erases v y x Hs) as (v' & E & Fr & Sh & Ce); [lia | lia |].
    exists v'. splits; try assumption.
    + rewrite Ce by assumption. now rewrite !Z.eqb_refl.
    + intros r c Hne.
      destruct (decide (0 <= r < Height v /\ 0 <= c < Width v)) as [[Hr Hc]|Hout].
      * rewrite Ce by assumption.
        destruct (Z.eqb_spec r y), (Z.eqb_spec c x); simpl; try reflexivity.
        subst. congruence.
      * rewrite (cell_outside v r c Hs Hout). apply cell_outside; [assumption |].
        destruct Fr as (-> & -> & _). assumption.
  - intros [Hy|[Hh Hx]].
    + apply clear_rows_above. destruct Hs as [H1 _ _ _]. lia.
    + destruct (shape_row v 0 Hs) as (row0 & _ & Hrow0 & _ & Hl0 & _); [lia |].
      apply (clear_cols_above v y x row0); [assumption | lia].
  - intros Hneg Hy Hx. unfold clear.
    pose proof (shape_rows v Hs) as H1.
    rewrite decide_False by lia.
    destruct (decide (0 < Height v)) as [Hh|Hh].
    + destruct (shape_row v 0 Hs) as (row0 & _ & Hrow0 & _ & Hl0 & _); [lia |].
      rewrite (index_Ret _ 0 row0) by (auto; lia). simpl.
      rewrite decide_False by lia.
      destruct (decide (y < 0)) as [Hy0|Hy0].
      * rewrite (index_neg (Content v)) by lia. reflexivity.
      * destruct (shape_row v y Hs) as (row & _ & Hrow & _ & Hl & _); [lia |].
        rewrite (index_Ret _ y row) by (auto; lia). simpl.
        rewrite store_neg by lia. reflexivity.
    + assert (Content v = []) as ->.
      { destruct (Content v); [reflexivity |].
        unfold len in H1. simpl in H1. lia. }
      reflexivity.
  - intros y1 x1 y2 x2 Hy1 Hx1 Hy2 Hx2.
    destruct (eraseRegion_erases v y1 x1 y2 x2) as (v' & E & Fr & Sh & Ce);
      try assumption; try lia.
    exists v'. splits; assumption.
Qed.

Lemma clear_spec_witness :
  exists v', clear TestErase_terminal 1 2 = Ret v' /\
             cell v' 1 2 = Some blank /\
             cell v' 1 1 = cell TestErase_terminal 1 1 /\
             clear TestErase_terminal 3 0 = Ret TestErase_terminal /\
             clear TestErase_terminal 0 (-1) = Panic OutOfRange.
Proof.
  destruct (clear_spec TestErase_terminal 1 2) as (Hin & _);
    [apply shapeb_shape; reflexivity |].
  destruct (clear_spec TestErase_terminal 3 0) as (_ & Hout & _);
    [apply shapeb_shape; reflexivity |].
  destruct (clear_spec TestErase_terminal 0 (-1)) as (_ & _ & Hneg & _);
    [apply shapeb_shape; reflexivity |].
  destruct Hin as (v' & E & _ & _ & Hc & Hothers); [simpl; lia | simpl; lia |].
  exists v'. splits.
  - exact E.
  - exact Hc.
  - apply Hothers. congruence.
  - apply Hout. left. simpl. lia.
  - apply Hneg; simpl; lia.
Defined.

(** C4, the claim as stated fails: with a negative row and a column
    inside the grid, [clear] takes neither branch of the claim, it
    panics; and so does [eraseRegion] on a rectangle that starts
    there. *)
Lemma clear_negative_counterexample :
  clear TestErase_terminal (-1) 0 = Panic OutOfRange /\
  (forall v', clear TestErase_terminal (-1) 0 <> Ret v') /\
  eraseRegion TestErase_terminal (-1) 0 0 0 = Panic OutOfRange.
Proof.
  splits.
  - reflexivity.
  - intros v'. discriminate.
  - reflexivity.
Qed.

(** C7. With the cursor on a row of the grid, the erase-in-display
    escape (CSI J, final byte 74) blanks exactly these cells and leaves
    the rune and format of every other cell as they were: mode 0, which
    is also the mode of an empty parameter list, the rows from the
    cursor row to the last one; mode 1 the rows from the first one to
    the cursor row; mode 2 every row.  The whole cursor row is blanked
    in every mode. *)
Theorem erase_in_display v ps :
  shape v -> dims_int v -> 0 < Width v ->
  0 <= Y (Cur v) < Height v ->
  0 <= param ps 0 0 <= 2 ->
  param [] 0 0 = 0 /\
  exists v', display v (Escape 74 ps) = Ret (v', None) /\
    forall r c, 0 <= r < Height v -> 0 <= c < Width v ->
      let m := param ps 0 0 in
      let y := Y (Cur v) in
      ((m = 0 /\ y <= r) \/ (m = 1 /\ r <= y) \/ m = 2 ->
       cell v' r c = Some blank) /\
      (~ ((m = 0 /\ y <= r) \/ (m = 1 /\ r <= y) \/ m = 2) ->
       cell v' r c = cell v r c).
Proof.
  intros Hs Hd Hw Hy Hm. split; [reflexivity |].
  destruct (eraseLines_erases v (param ps 0 0)) as (v' & E & _ & _ & Ce);
    try assumption.
  exists v'. split.
  - unfold display, escape. repeat (rewrite decide_False by lia).
    rewrite decide_True by reflexivity. rewrite E. reflexivity.
  - intros r c Hr Hc m y. rewrite (Ce r c Hr Hc). fold m y.
    unfold lines_region, eraseForward, eraseBack.
    split.
    + intros Hin. bool_lia.
    + intros Hout. bool_lia.
Qed.

Lemma erase_in_display_witness :
  exists v', display TestErase_terminal (Escape 74 []) = Ret (v', None) /\
    cell v' 0 3 = Some (100, TestErase_format) /\
    cell v' 1 0 = Some blank /\ cell v' 2 3 = Some blank.
Proof.
  destruct (erase_in_display TestErase_terminal [])
    as (_ & v' & E & Hc);
    [apply shapeb_shape; reflexivity | split; discriminate | reflexivity
    | simpl; lia | unfold param; simpl; lia |].
  exists v'. splits.
  - exact E.
  - destruct (Hc 0 3) as (_ & H); [simpl; lia | simpl; lia |].
    rewrite H; [reflexivity | unfold param; simpl; lia].
  - destruct (Hc 1 0) as (H & _); [simpl; lia | simpl; lia |].
    apply H. unfold param. simpl. lia.
  - destruct (Hc 2 3) as (H & _); [simpl; lia | simpl; lia |].
    apply H. unfold param. simpl. lia.
Defined.

(** C10. With the cursor on a cell of the grid, every erase command
    (CSI J, final byte 74, and CSI K, final byte 75, in modes 0, 1 and
    2) returns without error and leaves the cursor (position and
    format), the dimensions, the saved cursor, [maxY], the resize flags
    and the carry-over buffer as they were; a cell outside the erased
    rectangle keeps its rune and its format. *)
Theorem erase_frame v final ps :
  shape v -> dims_int v ->
  0 <= Y (Cur v) < Height v -> 0 <= X (Cur v) < Width v ->
  final = 74 \/ final = 75 ->
  0 <= param ps 0 0 <= 2 ->
  exists v', display v (Escape final ps) = Ret (v', None) /\
    Cur v' = Cur v /\ Height v' = Height v /\ Width v' = Width v /\
    savedCursor v' = savedCursor v /\ maxY v' = maxY v /\
    AutoResizeY v' = AutoResizeY v /\ AutoResizeX v' = AutoResizeX v /\
    unparsed v' = unparsed v /\
    forall r c,
      (if final =? 74 then lines_region (param ps 0 0) (Y (Cur v)) r c
       else columns_region (param ps 0 0) (Y (Cur v)) (X (Cur v)) r c) = false ->
      cell v' r c = cell v r c.
Proof.
  intros Hs Hd Hy Hx Hf Hm.
  assert (exists v', display v (Escape final ps) = Ret (v', None) /\
            erases (fun r c =>
              if final =? 74 then lines_region (param ps 0 0) (Y (Cur v)) r c
              else columns_region (param ps 0 0) (Y (Cur v)) (X (Cur v)) r c)
              v v') as (v' & E & Fr & Sh & Ce).
  { destruct Hf as [-> | ->].
    - destruct (eraseLines_erases v (param ps 0 0)) as (v' & E & He);
        try assumption; try lia.
      exists v'. split; [| exact He].
      unfold display, escape. repeat (rewrite decide_False by lia).
      rewrite decide_True by reflexivity. rewrite E. reflexivity.
    - destruct (eraseColumns_erases v (param ps 0 0)) as (v' & E & He);
        try assumption; try lia.
      exists v'. split; [| exact He].
      unfold display, escape. repeat (rewrite decide_False by lia).
      rewrite decide_True by reflexivity. rewrite E. reflexivity. }
  exists v'. split; [exact E |].
  pose proof Fr as (F1 & F2 & F3 & F4 & F5 & F6 & F7 & F8).
  splits; try assumption.
  intros r c Hout.
  destruct (decide (0 <= r < Height v /\ 0 <= c < Width v)) as [[Hr Hc]|Hg].
  - rewrite Ce by assumption. now rewrite Hout.
  - rewrite (cell_outside v r c Hs Hg). apply cell_outside; [assumption |].
    now rewrite F1, F2.
Qed.

Lemma erase_frame_witness :
  exists v', display TestErase_terminal (Escape 75 [Some 1]) = Ret (v', None) /\
    Cur v' = mkCursor 1 2 Format0 /\ maxY v' = -1 /\
    cell v' 1 3 = Some (104, TestErase_format).
Proof.
  destruct (erase_frame TestErase_terminal 75 [Some 1])
    as (v' & E & HC & _ & _ & _ & HM & _ & _ & _ & Hc);
    [apply shapeb_shape; reflexivity | split; discriminate
    | simpl; lia | simpl; lia | right; reflexivity
    | unfold param; simpl; lia |].
  exists v'. splits.
  - exact E.
  - exact HC.
  - exact HM.
  - rewrite Hc; reflexivity.
Defined.

(** ** Putting a rune *)

(** [put] with the cursor on a cell of the grid and no automatic
    widening: no scroll, no resize, the cell is written and the cursor
    advances. *)
Lemma put_in_grid v r :
  shape v ->
  0 <= Y (Cur v) < Height v -> 0 <= X (Cur v) < Width v ->
  AutoResizeX v = false ->
  put v r =
  Ret (advance
         (write_cell
            (if decide (Y (Cur v) > maxY v) then set_maxY (Y (Cur v)) v else v)
            (Z.to_nat (Y (Cur v))) (Z.to_nat (X (Cur v))) r (F (Cur v)))).
Proof.
  intros Hs Hy Hx Hax. unfold put.
  set (v1 := if decide (Y (Cur v) > maxY v) then set_maxY (Y (Cur v)) v else v).
  assert (Height v1 = Height v /\ Width v1 = Width v /\ Cur v1 = Cur v /\
          Content v1 = Content v /\ Formats v1 = Formats v /\
          AutoResizeX v1 = AutoResizeX v)
    as (E1 & E2 & E3 & E4 & E5 & E6)
    by (subst v1; destruct (decide (Y (Cur v) > maxY v)); simpl; tauto).
  unfold scrollOrResizeYIfNeeded. rewrite decide_False by (rewrite E1, E3; lia).
  simpl. unfold resizeXIfNeeded.
  rewrite decide_False by (rewrite E6, Hax; intros [? _]; discriminate).
  simpl. rewrite E3, E4, E5.
  destruct (shape_row v (Y (Cur v)) Hs Hy) as (row & frow & Hrow & Hfrow & Hl & Hlf).
  pose proof (shape_rows v Hs) as H1. pose proof (shape_frows v Hs) as H2.
  rewrite (index_Ret _ _ row) by (auto; lia). simpl.
  rewrite store_Ret by lia. simpl.
  rewrite store_Ret by lia. simpl.
  rewrite (index_Ret _ _ frow) by (auto; lia). simpl.
  rewrite store_Ret by lia. simpl.
  rewrite store_Ret by lia. simpl.
  unfold write_cell. rewrite E4, E5.
  rewrite (insert_row_alter (Formats v) _ _ _ frow Hfrow).
  rewrite (insert_row_alter (Content v) _ _ _ row Hrow). reflexivity.
Qed.

Lemma cell_advance v y x : cell (advance v) y x = cell v y x.
Proof.
  unfold advance.
  match goal with |- context [decide ?P] => destruct (decide P) end;
    reflexivity.
Qed.

Lemma put_cell v r :
  shape v ->
  0 <= Y (Cur v) < Height v -> 0 <= X (Cur v) < Width v ->
  AutoResizeX v = false ->
  exists v', put v r = Ret v' /\
             cell v' (Y (Cur v)) (X (Cur v)) = Some (r, F (Cur v)).
Proof.
  intros Hs Hy Hx Hax. eexists. split; [now apply put_in_grid |].
  rewrite cell_advance.
  set (v1 := if decide (Y (Cur v) > maxY v) then set_maxY (Y (Cur v)) v else v).
  assert (shape v1 /\ Height v1 = Height v /\ Width v1 = Width v)
    as (S1 & E1 & E2).
  { subst v1. destruct (decide (Y (Cur v) > maxY v)); [| tauto].
    split; [| tauto]. destruct Hs. split; assumption. }
  rewrite cell_write_cell by (assumption || lia).
  now rewrite !Z.eqb_refl.
Qed.

(** ** Attributes *)

Lemma attribute_Reset p f f' :
  p <> 0 -> attribute p f = Some f' -> Reset f' = Reset f.
Proof.
  intros Hp. unfold attribute.
  repeat match goal with
  | |- context [decide ?P] => destruct (decide P); [try lia; intros [= <-]; reflexivity |]
  end.
  discriminate.
Qed.

Lemma attributes_Reset ps f :
  Forall (fun p => default 0 p <> 0) ps ->
  Reset (fst (attributes ps f)) = Reset f.
Proof.
  intros Hps. revert f. induction Hps as [|p ps Hp _ IH]; intros f.
  - reflexivity.
  - simpl. destruct (attribute (default 0 p) f) as [f'|] eqn:E.
    + rewrite IH. eapply attribute_Reset; eassumption.
    + specialize (IH f). destruct (attributes ps f). exact IH.
Qed.

(** C8. SGR with the parameter 0, and in the same way SGR with an empty
    parameter list, replaces the cursor format by the default format
    with [Reset] set.  Attribute parameters other than 0 applied
    afterwards keep [Reset] set.  A rune put after "reset, then bold"
    is stored with the format reset and bold, not with plain bold. *)
Theorem sgr_reset_sticky v :
  let reset := set_Reset true Format0 in
  display v (Escape 109 [Some 0]) =
    Ret (set_Cur (mkCursor (Y (Cur v)) (X (Cur v)) reset) v, None) /\
  display v (Escape 109 []) = display v (Escape 109 [Some 0]) /\
  (forall ps v' e,
     Reset (F (Cur v)) = true ->
     ps <> [] -> Forall (fun p => default 0 p <> 0) ps ->
     display v (Escape 109 ps) = Ret (v', e) ->
     Reset (F (Cur v')) = true) /\
  (forall r,
     shape v -> 0 <= Y (Cur v) < Height v -> 0 <= X (Cur v) < Width v ->
     AutoResizeX v = false ->
     exists v1 v2 v3,
       display v (Escape 109 [Some 0]) = Ret (v1, None) /\
       display v1 (Escape 109 [Some 1]) = Ret (v2, None) /\
       display v2 (PutRune r) = Ret (v3, None) /\
       cell v3 (Y (Cur v)) (X (Cur v)) = Some (r, set_Intens Bold reset) /\
       set_Intens Bold reset <> set_Intens Bold Format0).
Proof.
  intros reset. splits.
  - reflexivity.
  - reflexivity.
  - intros ps v' e HR Hne Hps. unfold display, escape.
    repeat (rewrite decide_False by lia). rewrite decide_True by reflexivity.
    unfold updateAttributes.
    assert (match ps with [] => [Some 0] | _ => ps end = ps) as ->
      by (destruct ps; congruence).
    pose proof (attributes_Reset ps (F (Cur v)) Hps) as HA.
    destruct (attributes ps (F (Cur v))) as [f bad]. simpl in HA.
    intros [= <- _]. simpl. congruence.
  - intros r Hs Hy Hx Hax.
    set (v1 := set_Cur (mkCursor (Y (Cur v)) (X (Cur v)) reset) v).
    set (v2 := set_Cur (mkCursor (Y (Cur v)) (X (Cur v))
                                 (set_Intens Bold reset)) v).
    destruct (put_cell v2 r) as (v3 & E3 & C3); try assumption.
    { destruct Hs. split; assumption. }
    exists v1, v2, v3. splits.
    + reflexivity.
    + reflexivity.
    + simpl. rewrite E3. reflexivity.
    + exact C3.
    + discriminate.
Qed.

Lemma sgr_reset_sticky_witness :
  exists v1 v2 v3,
    display TestErase_terminal (Escape 109 [Some 0]) = Ret (v1, None) /\
    display v1 (Escape 109 [Some 4; Some 46]) = Ret (v2, None) /\
    Reset (F (Cur v2)) = true /\
    display v2 (PutRune 100) = Ret (v3, None) /\
    cell v3 1 2 =
    Some (100, set_Bg (ANSIColor 6) (set_Underline true (set_Reset true Format0))).
Proof.
  destruct (sgr_reset_sticky TestErase_terminal) as (E1 & _ & _ & _).
  eexists. eexists. eexists. split; [exact E1 |].
  split; [reflexivity |].
  split.
  - match goal with |- Reset (F (Cur ?v2)) = true =>
      destruct (sgr_reset_sticky
                  (set_Cur (mkCursor 1 2 (set_Reset true Format0))
                           TestErase_terminal))
        as (_ & _ & Hkeep & _);
      apply (Hkeep [Some 4; Some 46] v2 None)
    end.
    + reflexivity.
    + discriminate.
    + repeat constructor; simpl; lia.
    + reflexivity.
  - split; reflexivity.
Defined.

(** ** What a returning call has done *)

Lemma bind_Ret {A B} (m : outcome A) (k : A -> outcome B) b :
  m ≫= k = Ret b -> exists a, m = Ret a /\ k a = Ret b.
Proof. destruct m as [a|f]; simpl; [eauto | discriminate]. Qed.

Lemma bind_Ret_l {A B} (a : A) (k : A -> outcome B) : Ret a ≫= k = k a.
Proof. reflexivity. Qed.

Lemma index_inv {A} (l : list A) i a :
  index l i = Ret a -> 0 <= i /\ l !! Z.to_nat i = Some a.
Proof.
  unfold index. destruct (decide (0 <= i)); [| discriminate].
  destruct (l !! Z.to_nat i); [| discriminate]. intros [= ->]. auto.
Qed.

Lemma store_inv {A} (l : list A) i a l' :
  store l i a = Ret l' -> 0 <= i < len l /\ l' = <[Z.to_nat i := a]> l.
Proof.
  unfold store. destruct (decide (0 <= i < len l)); [| discriminate].
  intros [= <-]. auto.
Qed.

Lemma make_inv {A} (z : A) n l :
  make z n = Ret l -> 0 <= n /\ l = replicate (Z.to_nat n) z.
Proof.
  unfold make. destruct (decide (0 <= n)); [| discriminate].
  intros [= <-]. auto.
Qed.

Lemma slice_to_inv {A} (l : list A) n l' :
  slice_to l n = Ret l' -> 0 <= n <= len l /\ l' = take (Z.to_nat n) l.
Proof.
  unfold slice_to. destruct (decide (0 <= n <= len l)); [| discriminate].
  intros [= <-]. auto.
Qed.

(** Invert the steps of a returning computation. *)
Ltac invert_steps :=
  repeat match goal with
  | H : _ ≫= _ = Ret _ |- _ =>
    let a := fresh "a" in let E := fresh "E" in
    apply bind_Ret in H; destruct H as (a & E & H)
  | H : Ret _ = Ret _ |- _ => injection H as H
  | H : Panic _ = Ret _ |- _ => discriminate H
  | H : index _ _ = Ret _ |- _ => apply index_inv in H; destruct H as [? H]
  | H : store _ _ _ = Ret _ |- _ => apply store_inv in H; destruct H as [? H]
  | H : make _ _ = Ret _ |- _ => apply make_inv in H; destruct H as [? H]
  | H : slice_to _ _ = Ret _ |- _ => apply slice_to_inv in H; destruct H as [? H]
  end.

Lemma for_loop_ret {St} (I : Z -> St -> Prop) body n i (s s' : St) :
  I i s ->
  (forall j t t', i <= j < i + Z.of_nat n -> I j t -> body j t = Ret t' ->
                  I (j + 1) t') ->
  for_loop n i body s = Ret s' -> I (i + Z.of_nat n) s'.
Proof.
  revert i s. induction n as [|n IH]; intros i s Hi Hstep Hrun.
  - simpl in Hrun. injection Hrun as <-. now rewrite Z.add_0_r.
  - simpl in Hrun. apply bind_Ret in Hrun. destruct Hrun as (s1 & Hb & Hl).
    replace (i + Z.of_nat (S n)) with (i + 1 + Z.of_nat n) by lia.
    apply (IH (i + 1) s1).
    + apply (Hstep i s); [lia | assumption | assumption].
    + intros j t t' Hj. apply Hstep. lia.
    + exact Hl.
Qed.

Lemma for_below_ret {St} (I : Z -> St -> Prop) body lo hi (s s' : St) :
  I lo s ->
  (forall j t t', lo <= j < hi -> I j t -> body j t = Ret t' -> I (j + 1) t') ->
  for_below lo hi body s = Ret s' -> I (Z.max lo hi) s'.
Proof.
  intros H0 Hstep Hrun. unfold for_below in Hrun.
  replace (Z.max lo hi) with (lo + Z.of_nat (Z.to_nat (hi - lo))) by lia.
  eapply for_loop_ret; [exact H0 | | exact Hrun].
  intros j t t' Hj. apply Hstep. lia.
Qed.

Lemma same_widths_refl {A} (g : list (list A)) : same_widths g g.
Proof. intros k. reflexivity. Qed.

Lemma same_widths_trans {A} (g1 g2 g3 : list (list A)) :
  same_widths g1 g2 -> same_widths g2 g3 -> same_widths g1 g3.
Proof. intros H1 H2 k. now rewrite H2, H1. Qed.

Lemma same_widths_insert {A} (g : list (list A)) y row row' :
  g !! y = Some row -> length row' = length row ->
  same_widths g (<[y := row']> g).
Proof.
  intros Hrow Hlen k. destruct (decide (y = k)) as [<-|Hne].
  - rewrite list_lookup_insert_eq by (now apply lookup_lt_Some in Hrow).
    rewrite Hrow. simpl. now rewrite Hlen.
  - now rewrite list_lookup_insert_ne.
Qed.

Lemma same_widths_length {A} (g g' : list (list A)) :
  same_widths g g' -> length g' = length g.
Proof.
  intros H.
  destruct (Nat.lt_trichotomy (length g') (length g)) as [Hlt|[Heq|Hgt]];
    [| assumption |].
  - specialize (H (length g')).
    rewrite (lookup_ge_None_2 g') in H by lia.
    destruct (lookup_lt_is_Some_2 g (length g') Hlt) as [x Hx].
    rewrite Hx in H. discriminate.
  - specialize (H (length g)).
    rewrite (lookup_ge_None_2 g) in H by lia.
    destruct (lookup_lt_is_Some_2 g' (length g) Hgt) as [x Hx].
    rewrite Hx in H. discriminate.
Qed.

Lemma same_widths_row {A} (g g' : list (list A)) k row' :
  same_widths g g' -> g' !! k = Some row' ->
  exists row, g !! k = Some row /\ length row = length row'.
Proof.
  intros H Hrow. specialize (H k). rewrite Hrow in H. simpl in H.
  destruct (g !! k) as [row|]; [| discriminate].
  exists row. split; [reflexivity |]. now injection H.
Qed.

(** Whenever [clear] returns, only cells have changed. *)
Lemma clear_ret v y x v' :
  clear v y x = Ret v' ->
  same_frame v v' /\ same_widths (Content v) (Content v') /\
  same_widths (Formats v) (Formats v').
Proof.
  unfold clear. intros H.
  destruct (decide (y >= len (Content v))).
  { injection H as <-. split; [apply same_frame_refl |].
    split; apply same_widths_refl. }
  apply bind_Ret in H. destruct H as (row0 & E0 & H).
  destruct (decide (x >= len row0)).
  { injection H as <-. split; [apply same_frame_refl |].
    split; apply same_widths_refl. }
  invert_steps. subst. split; [apply same_frame_grids |]. simpl.
  split; eapply same_widths_insert; try eassumption; apply length_insert.
Qed.

(** ** Resizing *)

Lemma length_copy {A} (dst src : list A) : length (copy dst src) = length dst.
Proof. unfold copy. rewrite length_app, length_take, length_drop. lia. Qed.

Lemma rows_w_same_widths {A} (g g' : list (list A)) w :
  same_widths g g' -> rows_w g w -> rows_w g' w.
Proof.
  intros Hsw Hg k row' Hrow'.
  destruct (same_widths_row g g' k row' Hsw Hrow') as (row & Hrow & Hlen).
  unfold len. rewrite <- Hlen. now apply (Hg k).
Qed.

(** A run of [clear] over the columns [lo..hi) of one row. *)
Lemma clear_run_ret (fy : VT100 -> Z) v lo hi v' :
  for_below lo hi (fun col v => clear v (fy v) col) v = Ret v' ->
  same_frame v v' /\ same_widths (Content v) (Content v') /\
  same_widths (Formats v) (Formats v').
Proof.
  intros H.
  apply (for_below_ret (fun _ t =>
           same_frame v t /\ same_widths (Content v) (Content t) /\
           same_widths (Formats v) (Formats t))
           (fun col v => clear v (fy v) col) lo hi v v'); [| | exact H].
  - split; [apply same_frame_refl |]. split; apply same_widths_refl.
  - intros j t t' _ (Fr & Sc & Sf) Hc.
    destruct (clear_ret t (fy t) j t' Hc) as (Fr' & Sc' & Sf').
    split; [eapply same_frame_trans; eassumption |].
    split; eapply same_widths_trans; eassumption.
Qed.

Lemma resizing_shape v n i w t :
  resizing v n i w w t -> rows_w (Content t) w /\ rows_w (Formats t) w.
Proof.
  intros (_ & _ & _ & Hc & Hf). split; intros k row Hrow.
  - rewrite (Hc k row Hrow). now destruct (decide _).
  - rewrite (Hf k row Hrow). now destruct (decide _).
Qed.

Lemma widths_split_step {A} (g : list (list A)) i row' w1 w2 :
  0 <= i -> widths_split g i w1 w2 -> len row' = w1 ->
  widths_split (<[Z.to_nat i := row']> g) (i + 1) w1 w2.
Proof.
  intros Hi Hg Hlen k row Hrow.
  rewrite list_lookup_insert in Hrow.
  destruct (decide (Z.to_nat i = k /\ (Z.to_nat i < length g)%nat))
    as [[<- _]|Hne].
  - injection Hrow as <-. rewrite decide_True by lia. exact Hlen.
  - rewrite (Hg k row Hrow).
    assert (Z.to_nat i <> k).
    { intros <-. apply Hne. split; [reflexivity |].
      now apply lookup_lt_Some in Hrow. }
    destruct (decide (Z.of_nat k < i)), (decide (Z.of_nat k < i + 1));
      try reflexivity; lia.
Qed.

Lemma widths_split_same_widths {A} (g g' : list (list A)) i w1 w2 :
  same_widths g g' -> widths_split g i w1 w2 -> widths_split g' i w1 w2.
Proof.
  intros Hsw Hg k row' Hrow'.
  destruct (same_widths_row g g' k row' Hsw Hrow') as (row & Hrow & Hlen).
  unfold len. rewrite <- Hlen. now apply (Hg k).
Qed.

(** The bodies of the three loops of [resize]. *)
Local Abbreviation grow_row :=
  (fun (row : Z) (v : VT100) =>
     r ← make (0 : rune) (Width v);
     let v := set_Content (Content v ++ [r]) v in
     f ← make Format0 (Width v);
     let v := set_Formats (Formats v ++ [f]) v in
     for_below 0 (Width v)
               (fun col v => clear v (int_add (Height v) row) col) v).

Local Abbreviation widen_row w :=
  (fun (i : Z) (v : VT100) =>
     row ← make (0 : rune) w;
     old ← index (Content v) i;
     content' ← store (Content v) i (copy row old);
     let v := set_Content content' v in
     format ← make Format0 w;
     oldF ← index (Formats v) i;
     formats' ← store (Formats v) i (copy format oldF);
     let v := set_Formats formats' v in
     for_below (Width v) w (fun j v => clear v i j) v).

Local Abbreviation narrow_row w :=
  (fun (i : Z) (v : VT100) =>
     old ← index (Content v) i;
     row ← slice_to old w;
     content' ← store (Content v) i row;
     let v := set_Content content' v in
     oldF ← index (Formats v) i;
     rowF ← slice_to oldF w;
     formats' ← store (Formats v) i rowF;
     Ret (set_Formats formats' v)).

Lemma rows_w_snoc {A} (g : list (list A)) w row :
  rows_w g w -> len row = w -> rows_w (g ++ [row]) w.
Proof.
  intros Hg Hlen k row' Hrow'. apply lookup_app_Some in Hrow'.
  destruct Hrow' as [Hrow'|[_ Hrow']]; [eauto |].
  apply list_lookup_singleton_Some in Hrow'. now destruct Hrow' as [_ <-].
Qed.

(** One more row: the invariant of the first loop is kept. *)
Lemma grow_row_ret v j t0 t' :
  0 <= j ->
  resizing v (Height v + j) 0 (Width v) (Width v) t0 ->
  grow_row j t0 = Ret t' ->
  resizing v (Height v + (j + 1)) 0 (Width v) (Width v) t'.
Proof.
  intros Hj Ht Hbody. simpl in Hbody.
  pose proof (resizing_shape _ _ _ _ _ Ht) as (Rc & Rf).
  destruct Ht as (Fr & L1 & L2 & _).
  pose proof Fr as (F1 & F2 & _).
  apply bind_Ret in Hbody. destruct Hbody as (r & Er & Hbody).
  apply bind_Ret in Hbody. destruct Hbody as (f & Ef & Hbody).
  simpl in Ef, Hbody.
  apply make_inv in Er. destruct Er as [Hw ->].
  apply make_inv in Ef. destruct Ef as [_ ->].
  apply (clear_run_ret (fun v0 => int_add (Height v0) j)) in Hbody.
  simpl in Hbody. destruct Hbody as (Fr' & Sc & Sf).
  assert (rows_w (Content t0 ++ [replicate (Z.to_nat (Width t0)) 0])
                 (Width v)) as Rc1
    by (apply rows_w_snoc; [assumption | rewrite len_replicate; lia]).
  assert (rows_w (Formats t0 ++ [replicate (Z.to_nat (Width t0)) Format0])
                 (Width v)) as Rf1
    by (apply rows_w_snoc; [assumption | rewrite len_replicate; lia]).
  split.
  { eapply same_frame_trans; [exact Fr |].
    eapply same_frame_trans; [| exact Fr'].
    unfold same_frame. simpl. tauto. }
  apply same_widths_length in Sc as Lc.
  apply same_widths_length in Sf as Lf.
  rewrite length_app in Lc, Lf. simpl in Lc, Lf.
  splits.
  - unfold len in *. lia.
  - unfold len in *. lia.
  - intros k row Hrow. rewrite decide_False by lia.
    eapply rows_w_same_widths; eassumption.
  - intros k row Hrow. rewrite decide_False by lia.
    eapply rows_w_same_widths; eassumption.
Qed.

(** One row widened: the invariant of the second loop is kept. *)
Lemma widen_row_ret v w j t0 t' :
  0 <= j ->
  resizing v (Height v) j w (Width v) t0 ->
  widen_row w j t0 = Ret t' ->
  resizing v (Height v) (j + 1) w (Width v) t'.
Proof.
  intros Hj (Fr & L1 & L2 & Wc & Wf) Hbody. cbv zeta in Hbody.
  apply bind_Ret in Hbody. destruct Hbody as (row & Erow & Hbody).
  apply bind_Ret in Hbody. destruct Hbody as (old & Eold & Hbody).
  apply bind_Ret in Hbody. destruct Hbody as (c' & Ec & Hbody).
  apply bind_Ret in Hbody. destruct Hbody as (fmt & Efmt & Hbody).
  apply bind_Ret in Hbody. destruct Hbody as (oldF & EoldF & Hbody).
  apply bind_Ret in Hbody. destruct Hbody as (f' & Ef & Hbody).
  simpl in *.
  apply make_inv in Erow. destruct Erow as [Hw ->].
  apply make_inv in Efmt. destruct Efmt as [_ ->].
  apply store_inv in Ec. destruct Ec as [Hjc ->].
  apply store_inv in Ef. destruct Ef as [Hjf ->].
  apply (clear_run_ret (fun _ => j)) in Hbody. simpl in Hbody.
  destruct Hbody as (Fr' & Sc & Sf).
  split.
  { eapply same_frame_trans; [exact Fr |].
    eapply same_frame_trans; [| exact Fr'].
    unfold same_frame. simpl. tauto. }
  apply same_widths_length in Sc as Lc. apply same_widths_length in Sf as Lf.
  rewrite length_insert in Lc. rewrite length_insert in Lf.
  splits.
  - unfold len in *. lia.
  - unfold len in *. lia.
  - eapply widths_split_same_widths; [exact Sc |].
    apply widths_split_step; [lia | exact Wc |].
    unfold len. rewrite length_copy, length_replicate. lia.
  - eapply widths_split_same_widths; [exact Sf |].
    apply widths_split_step; [lia | exact Wf |].
    unfold len. rewrite length_copy, length_replicate. lia.
Qed.

(** One row narrowed: the invariant of the third loop is kept. *)
Lemma narrow_row_ret v w j t0 t' :
  0 <= j ->
  resizing v (Height v) j w (Width v) t0 ->
  narrow_row w j t0 = Ret t' ->
  resizing v (Height v) (j + 1) w (Width v) t'.
Proof.
  intros Hj (Fr & L1 & L2 & Wc & Wf) Hbody. cbv zeta in Hbody.
  apply bind_Ret in Hbody. destruct Hbody as (old & Eold & Hbody).
  apply bind_Ret in Hbody. destruct Hbody as (row & Erow & Hbody).
  apply bind_Ret in Hbody. destruct Hbody as (c' & Ec & Hbody).
  apply bind_Ret in Hbody. destruct Hbody as (oldF & EoldF & Hbody).
  apply bind_Ret in Hbody. destruct Hbody as (rowF & ErowF & Hbody).
  apply bind_Ret in Hbody. destruct Hbody as (f' & Ef & Hbody).
  simpl in *. injection Hbody as <-.
  apply slice_to_inv in Erow. destruct Erow as [Hw ->].
  apply slice_to_inv in ErowF. destruct ErowF as [HwF ->].
  apply store_inv in Ec. destruct Ec as [Hjc ->].
  apply store_inv in Ef. destruct Ef as [Hjf ->].
  split.
  { eapply same_frame_trans; [exact Fr |].
    unfold same_frame. simpl. tauto. }
  simpl. splits.
  - rewrite len_insert. assumption.
  - rewrite len_insert. assumption.
  - apply widths_split_step; [lia | exact Wc |].
    unfold len in *. rewrite length_take. lia.
  - apply widths_split_step; [lia | exact Wf |].
    unfold len in *. rewrite length_take. lia.
Qed.

Lemma resizing_start v w : shape v -> resizing v (Height v) 0 w (Width v) v.
Proof.
  intros [H1 H2 H3 H4]. split; [apply same_frame_refl |].
  splits; try assumption.
  - intros k row Hrow. rewrite decide_False by lia. eauto.
  - intros k row Hrow. rewrite decide_False by lia. eauto.
Qed.

(** The end of the first loop. *)
Lemma resizing_rows_end v h t :
  resizing v h 0 (Width v) (Width v) t ->
  shape (set_Height h t) /\ Height (set_Height h t) = h /\
  Width (set_Height h t) = Width v /\ Cur (set_Height h t) = Cur v /\
  maxY (set_Height h t) = maxY v /\ same_config v (set_Height h t).
Proof.
  intros Hend. pose proof (resizing_shape _ _ _ _ _ Hend) as (Rc & Rf).
  destruct Hend as ((F1 & F2 & F3 & F4 & F5 & F6 & F7 & F8) & L1 & L2 & _).
  splits; simpl; try assumption; try reflexivity.
  - split; simpl; try lia; try (rewrite F2; assumption).
  - unfold same_config. tauto.
Qed.

(** The end of the second and of the third loop. *)
Lemma resizing_cols_end v w t :
  0 <= Height v ->
  resizing v (Height v) (Z.max 0 (Height v)) w (Width v) t ->
  shape (set_Width w t) /\ Height (set_Width w t) = Height v /\
  Width (set_Width w t) = w /\ Cur (set_Width w t) = Cur v /\
  maxY (set_Width w t) = maxY v /\ same_config v (set_Width w t).
Proof.
  intros HH0 ((F1 & F2 & F3 & F4 & F5 & F6 & F7 & F8) & L1 & L2 & Wc & Wf).
  rewrite Z.max_r in Wc, Wf by lia.
  splits; simpl; try assumption; try reflexivity.
  - split; simpl; try lia.
    + intros k row Hrow. rewrite (Wc k row Hrow).
      apply decide_True. apply lookup_len in Hrow. lia.
    + intros k row Hrow. rewrite (Wf k row Hrow).
      apply decide_True. apply lookup_len in Hrow. lia.
  - unfold same_config. tauto.
Qed.

Lemma int_sub_id a b : in_int (a - b) -> int_sub a b = a - b.
Proof. apply wrap_id. Qed.

Lemma resize_height_ret v h v1 :
  shape v -> (h > Height v -> h <= max_int) ->
  (if decide (h > Height v) then
     let n := int_sub h (Height v) in
     v ← for_below 0 n grow_row v;
     Ret (set_Height h v)
   else if decide (h < Height v) then
     content' ← slice_to (Content v) h;
     formats' ← slice_to (Formats v) h;
     Ret (set_Height h (set_Formats formats' (set_Content content' v)))
   else Ret v) = Ret v1 ->
  shape v1 /\ Height v1 = h /\ Width v1 = Width v /\ Cur v1 = Cur v /\
  maxY v1 = maxY v /\ same_config v v1.
Proof.
  intros Hs Hh H. pose proof Hs as [H1 H2 H3 H4].
  assert (0 <= Height v) as HH0 by (unfold len in H1; lia).
  destruct (decide (h > Height v)) as [Hgt|Hle].
  - specialize (Hh Hgt).
    cbv zeta in H. apply bind_Ret in H. destruct H as (t & Hloop & H).
    injection H as <-.
    rewrite int_sub_id in Hloop
      by (unfold in_int, min_int, max_int in *; lia).
    apply resizing_rows_end.
    replace h with (Height v + Z.max 0 (h - Height v)) at 1 by lia.
    revert Hloop.
    apply (for_below_ret (fun i t =>
             resizing v (Height v + i) 0 (Width v) (Width v) t)).
    + rewrite Z.add_0_r. now apply resizing_start.
    + intros j t0 t' Hj. apply grow_row_ret. lia.
  - destruct (decide (h < Height v)) as [Hlt|Hge].
    + invert_steps. subst. simpl. splits; try reflexivity.
      * split; simpl; unfold len in *.
        -- rewrite length_take. lia.
        -- rewrite length_take. lia.
        -- intros i row Hrow. apply lookup_take_Some in Hrow.
           destruct Hrow as [Hrow _]. eauto.
        -- intros i row Hrow. apply lookup_take_Some in Hrow.
           destruct Hrow as [Hrow _]. eauto.
      * unfold same_config. simpl. tauto.
    + injection H as <-. splits; try reflexivity; try assumption; try lia.
      unfold same_config. tauto.
Qed.

Lemma resize_width_ret v w v2 :
  shape v ->
  (if decide (w > Width v) then
     v ← for_below 0 (len (Content v)) (widen_row w) v;
     Ret (set_Width w v)
   else if decide (w < Width v) then
     v ← for_below 0 (len (Content v)) (narrow_row w) v;
     Ret (set_Width w v)
   else Ret v) = Ret v2 ->
  shape v2 /\ Height v2 = Height v /\ Width v2 = w /\ Cur v2 = Cur v /\
  maxY v2 = maxY v /\ same_config v v2.
Proof.
  intros Hs H. pose proof Hs as [H1 H2 H3 H4].
  assert (0 <= Height v) as HH0 by (unfold len in H1; lia).
  rewrite H1 in H.
  destruct (decide (w > Width v)) as [Hgt|Hle].
  - apply bind_Ret in H. destruct H as (t & Hloop & H). injection H as <-.
    apply resizing_cols_end; [assumption |]. revert Hloop.
    apply (for_below_ret (fun i t => resizing v (Height v) i w (Width v) t));
      [now apply resizing_start |].
    intros j t0 t' Hj. apply widen_row_ret. lia.
  - destruct (decide (w < Width v)) as [Hlt|Hge].
    + apply bind_Ret in H. destruct H as (t & Hloop & H). injection H as <-.
      apply resizing_cols_end; [assumption |]. revert Hloop.
      apply (for_below_ret (fun i t => resizing v (Height v) i w (Width v) t));
        [now apply resizing_start |].
      intros j t0 t' Hj. apply narrow_row_ret. lia.
    + injection H as <-. splits; try reflexivity; try assumption; try lia.
      unfold same_config. tauto.
Qed.

(** Whenever [resize] returns, the grid has the requested dimensions
    and the right shape; the cursor column is brought back to the last
    column if it was past it, and [maxY] is lowered only when it was
    above [h]. *)
Lemma resize_ret v h w v' :
  shape v -> (h > Height v -> h <= max_int) ->
  resize v h w = Ret v' ->
  shape v' /\ Height v' = h /\ Width v' = w /\
  Y (Cur v') = Y (Cur v) /\ F (Cur v') = F (Cur v) /\
  X (Cur v') = (if decide (X (Cur v) >= w) then int_sub w 1 else X (Cur v)) /\
  maxY v' = (if decide (h < maxY v) then int_sub h 1 else maxY v) /\
  same_config v v'.
Proof.
  intros Hs Hh H. unfold resize in H.
  apply bind_Ret in H. destruct H as (v1 & E1 & H).
  apply (resize_height_ret v h v1 Hs Hh) in E1.
  destruct E1 as (S1 & HH1 & HW1 & HC1 & HM1 & Cf1).
  cbv zeta in H.
  apply bind_Ret in H. destruct H as (v2 & E2 & H).
  set (v1' := if decide (h < maxY v1) then set_maxY (int_sub h 1) v1 else v1) in *.
  assert (shape v1' /\ Height v1' = h /\ Width v1' = Width v /\
          Cur v1' = Cur v /\ same_config v v1' /\
          maxY v1' = if decide (h < maxY v) then int_sub h 1 else maxY v)
    as (S1' & HH1' & HW1' & HC1' & Cf1' & HM1').
  { subst v1'. rewrite HM1. destruct (decide (h < maxY v)); simpl.
    - splits; try assumption; try reflexivity.
      destruct S1. split; assumption.
    - splits; try assumption; try reflexivity. }
  apply (resize_width_ret v1' w v2 S1') in E2.
  destruct E2 as (S2 & HH2 & HW2 & HC2 & HM2 & Cf2).
  injection H as <-.
  assert (same_config v v2) as Cf.
  { unfold same_config in *. intuition congruence. }
  destruct (decide (X (Cur v2) >= Width v2)) as [Hx|Hx].
  - unfold set_X. simpl. rewrite HC2, HC1' in *. rewrite HW2 in *.
    rewrite decide_True by assumption.
    splits; try reflexivity; try congruence.
    + destruct S2. split; assumption.
    + exact Cf.
  - rewrite HC2, HC1' in *. rewrite HW2 in Hx.
    rewrite decide_False by assumption.
    splits; try reflexivity; try congruence.
Qed.

(** ** Scrolling and putting *)

Lemma wrap_range z : min_int <= wrap z <= max_int.
Proof.
  unfold wrap, min_int, max_int.
  pose proof (Z.mod_pos_bound (z + 2 ^ 63) (2 ^ 64)). lia.
Qed.

Lemma store_run_length {A} (a : A) lo hi l l' :
  for_below lo hi (fun i row => store row i a) l = Ret l' ->
  length l' = length l.
Proof.
  apply (for_below_ret (fun _ t => length t = length l)
                       (fun i row => store row i a)); [reflexivity |].
  intros j t t' _ Ht Hst. apply store_inv in Hst. destruct Hst as [_ ->].
  now rewrite length_insert.
Qed.

Lemma rows_w_copy_tail {A} (g : list (list A)) w :
  rows_w g w -> rows_w (copy g (drop 1 g)) w.
Proof.
  intros Hg k row Hrow. unfold copy in Hrow.
  apply lookup_app_Some in Hrow. destruct Hrow as [Hrow|[_ Hrow]].
  - apply lookup_take_Some in Hrow. destruct Hrow as [Hrow _].
    rewrite lookup_drop in Hrow. eauto.
  - rewrite lookup_drop in Hrow. eauto.
Qed.

Lemma rows_w_insert {A} (g : list (list A)) w i row :
  rows_w g w -> len row = w -> rows_w (<[i := row]> g) w.
Proof.
  intros Hg Hlen k row' Hrow'. rewrite list_lookup_insert in Hrow'.
  destruct (decide _); [injection Hrow' as <-; assumption | eauto].
Qed.

(** Whenever [scrollOne] returns, the grid keeps its shape and the
    cursor is on the last row. *)
Lemma scrollOne_ret v v' :
  shape v -> scrollOne v = Ret v' ->
  shape v' /\ Height v' = Height v /\ Width v' = Width v /\
  Y (Cur v') = int_sub (Height v) 1 /\ X (Cur v') = X (Cur v) /\
  F (Cur v') = F (Cur v) /\ maxY v' = maxY v /\ same_config v v'.
Proof.
  intros [H1 H2 H3 H4] H. unfold scrollOne in H.
  apply bind_Ret in H. destruct H as (first & E0 & H).
  apply bind_Ret in H. destruct H as (first' & El & H).
  apply bind_Ret in H. destruct H as (content & Ec & H).
  cbv zeta in H. simpl in H.
  apply bind_Ret in H. destruct H as (firstF & EF0 & H).
  apply bind_Ret in H. destruct H as (firstF' & ElF & H).
  apply bind_Ret in H. destruct H as (formats & Ef & H).
  injection H as <-.
  apply index_inv in E0. destruct E0 as [_ E0].
  apply index_inv in EF0. destruct EF0 as [_ EF0].
  apply store_run_length in El. apply store_run_length in ElF.
  apply store_inv in Ec. destruct Ec as [_ ->].
  apply store_inv in Ef. destruct Ef as [_ ->].
  splits; try reflexivity.
  - split; simpl.
    + rewrite len_insert. unfold len in *. now rewrite length_copy.
    + rewrite len_insert. unfold len in *. now rewrite length_copy.
    + apply rows_w_insert; [now apply rows_w_copy_tail |].
      unfold len. rewrite El. now apply (H3 _ _ E0).
    + apply rows_w_insert; [now apply rows_w_copy_tail |].
      unfold len. rewrite ElF. now apply (H4 _ _ EF0).
  - unfold same_config. simpl. tauto.
Qed.

Lemma advance_frame v :
  Height (advance v) = Height v /\ Width (advance v) = Width v /\
  Content (advance v) = Content v /\ Formats (advance v) = Formats v /\
  maxY (advance v) = maxY v /\ same_config v (advance v) /\
  F (Cur (advance v)) = F (Cur v).
Proof.
  unfold advance, same_config.
  match goal with |- context [decide ?P] => destruct (decide P) end;
    simpl; tauto.
Qed.

(** Whenever [put] returns, it has written its rune on a cell of a
    well-shaped grid [t], at least as wide as before, and advanced. *)
Lemma put_ret v r v' :
  shape v -> put v r = Ret v' ->
  exists t, shape t /\ same_config v t /\
    Width v <= Width t /\ (Width v <= max_int -> Width t <= max_int) /\
    0 <= Y (Cur t) < Height t /\ 0 <= X (Cur t) < Width t /\
    F (Cur t) = F (Cur v) /\
    v' = advance (write_cell t (Z.to_nat (Y (Cur t))) (Z.to_nat (X (Cur t)))
                             r (F (Cur t))).
Proof.
  intros Hs H. unfold put in H.
  set (v0 := if decide (Y (Cur v) > maxY v) then set_maxY (Y (Cur v)) v else v)
    in *.
  assert (shape v0 /\ same_config v v0 /\ Width v0 = Width v /\ Cur v0 = Cur v)
    as (S0 & C0 & W0 & K0).
  { subst v0. destruct (decide (Y (Cur v) > maxY v)); simpl.
    - splits; try reflexivity; [destruct Hs; split; assumption |].
      unfold same_config. simpl. tauto.
    - splits; try reflexivity; [assumption | unfold same_config; tauto]. }
  clearbody v0.
  apply bind_Ret in H. destruct H as (v1 & E1 & H).
  assert (shape v1 /\ same_config v0 v1 /\ Width v1 = Width v0 /\
          F (Cur v1) = F (Cur v0)) as (S1 & C1 & W1 & K1).
  { unfold scrollOrResizeYIfNeeded in E1.
    destruct (decide (Y (Cur v0) >= Height v0)).
    - destruct (AutoResizeY v0).
      + apply resize_ret in E1; [| assumption |].
        * destruct E1 as (? & ? & ? & ? & ? & ? & ? & ?). tauto.
        * intros _. apply wrap_range.
      + apply scrollOne_ret in E1; [| assumption].
        destruct E1 as (? & ? & ? & ? & ? & ? & ? & ?). tauto.
    - injection E1 as <-. splits; try reflexivity; [assumption |].
      unfold same_config. tauto. }
  apply bind_Ret in H. destruct H as (v2 & E2 & H).
  assert (shape v2 /\ same_config v1 v2 /\ Width v1 <= Width v2 /\
          (Width v1 <= max_int -> Width v2 <= max_int) /\
          F (Cur v2) = F (Cur v1)) as (S2 & C2 & W2 & M2 & K2).
  { unfold resizeXIfNeeded in E2.
    destruct (decide (AutoResizeX v1 = true /\ int_add (X (Cur v1)) 1 >= Width v1))
      as [[_ Hge]|].
    - apply resize_ret in E2; [| assumption | lia].
      destruct E2 as (? & ? & -> & ? & ? & ? & ? & ?).
      splits; try assumption; try lia.
      intros _. apply wrap_range.
    - injection E2 as <-. splits; try reflexivity; try assumption; try lia.
      unfold same_config. tauto. }
  exists v2.
  apply bind_Ret in H. destruct H as (row & Er & H).
  apply bind_Ret in H. destruct H as (row' & Er' & H).
  apply bind_Ret in H. destruct H as (content & Ec & H).
  cbv zeta in H. simpl in H.
  apply bind_Ret in H. destruct H as (rowF & EF & H).
  apply bind_Ret in H. destruct H as (rowF' & EF' & H).
  apply bind_Ret in H. destruct H as (formats & Ef & H).
  injection H as <-.
  apply index_inv in Er. destruct Er as [Hy Er].
  apply index_inv in EF. destruct EF as [_ EF].
  apply store_inv in Er'. destruct Er' as [Hx ->].
  apply store_inv in EF'. destruct EF' as [_ ->].
  apply store_inv in Ec. destruct Ec as [Hyc ->].
  apply store_inv in Ef. destruct Ef as [_ ->].
  pose proof (shape_rows v2 S2) as L2.
  pose proof (shape_cols v2 S2 _ _ Er) as Lr.
  splits; try assumption; try lia.
  - unfold same_config in *. intuition congruence.
  - congruence.
  - unfold write_cell.
    rewrite (insert_row_alter (Formats v2) _ _ _ rowF EF).
    rewrite (insert_row_alter (Content v2) _ _ _ row Er). reflexivity.
Qed.

(** ** Erasing, whenever it returns *)

Lemma cells_only_refl v : cells_only v v.
Proof. split; [apply same_frame_refl |]. split; apply same_widths_refl. Qed.

Lemma cells_only_trans v1 v2 v3 :
  cells_only v1 v2 -> cells_only v2 v3 -> cells_only v1 v3.
Proof.
  intros (F1 & C1 & G1) (F2 & C2 & G2).
  split; [eapply same_frame_trans; eassumption |].
  split; eapply same_widths_trans; eassumption.
Qed.

Lemma cells_only_shape v v' : shape v -> cells_only v v' -> shape v'.
Proof.
  intros [H1 H2 H3 H4] ((HH & HW & _) & Sc & Sf).
  split; unfold len in *.
  - rewrite (same_widths_length _ _ Sc). congruence.
  - rewrite (same_widths_length _ _ Sf). congruence.
  - rewrite HW. eapply rows_w_same_widths; eassumption.
  - rewrite HW. eapply rows_w_same_widths; eassumption.
Qed.

Lemma for_upto_cells_only body lo hi v v' :
  (forall j t t', body j t = Ret t' -> cells_only t t') ->
  for_upto lo hi body v = Ret v' -> cells_only v v'.
Proof.
  intros Hbody H. unfold for_upto in H.
  destruct (decide (lo <= hi /\ hi = max_int)); [discriminate |].
  revert H.
  apply (for_loop_ret (fun _ t => cells_only v t) body);
    [apply cells_only_refl |].
  intros j t t' _ Ht Hb. eapply cells_only_trans; [exact Ht |]. eauto.
Qed.

Lemma eraseRegion_ret v y1 x1 y2 x2 v' :
  eraseRegion v y1 x1 y2 x2 = Ret v' -> cells_only v v'.
Proof.
  unfold eraseRegion.
  destruct (decide (y1 > y2)), (decide (x1 > x2));
    apply for_upto_cells_only; intros y t t';
    apply for_upto_cells_only; intros x u u'; apply clear_ret.
Qed.

Lemma eraseLines_ret v d v' : eraseLines v d = Ret v' -> cells_only v v'.
Proof.
  unfold eraseLines.
  repeat (match goal with |- context [decide ?P] => destruct (decide P) end;
          [apply eraseRegion_ret |]).
  intros [= <-]. apply cells_only_refl.
Qed.

Lemma eraseColumns_ret v d v' : eraseColumns v d = Ret v' -> cells_only v v'.
Proof.
  unfold eraseColumns.
  repeat (match goal with |- context [decide ?P] => destruct (decide P) end;
          [apply eraseRegion_ret |]).
  intros [= <-]. apply cells_only_refl.
Qed.

(** ** Resizing, scrolling and putting return *)

Lemma for_below_total {St} (I : Z -> St -> Prop) body lo hi (s : St) :
  I lo s ->
  (forall j t, lo <= j < hi -> I j t ->
     exists t', body j t = Ret t' /\ I (j + 1) t') ->
  exists s', for_below lo hi body s = Ret s' /\ I (Z.max lo hi) s'.
Proof.
  intros H0 Hstep. unfold for_below.
  destruct (for_loop_inv I body (Z.to_nat (hi - lo)) lo s) as (s' & E & H);
    [assumption | | ].
  - intros j t Hj. apply Hstep. lia.
  - exists s'. split; [exact E |].
    replace (Z.max lo hi) with (lo + Z.of_nat (Z.to_nat (hi - lo))) by lia.
    exact H.
Qed.

Lemma same_widths_row_fwd {A} (g g' : list (list A)) k row :
  same_widths g g' -> g !! k = Some row ->
  exists row', g' !! k = Some row' /\ length row' = length row.
Proof.
  intros H Hrow. specialize (H k). rewrite Hrow in H. simpl in H.
  destruct (g' !! k) as [row'|]; [| discriminate].
  exists row'. split; [reflexivity |]. now injection H.
Qed.

Lemma clearable_cells_only t t' y :
  cells_only t t' -> clearable t y -> clearable t' y.
Proof.
  intros (_ & Sc & Sf) [Hge|(row0 & row & frow & H0 & Hr & Hf & L1 & L2)].
  - left. unfold len in *. now rewrite (same_widths_length _ _ Sc).
  - right.
    destruct (same_widths_row_fwd _ _ _ _ Sc H0) as (row0' & H0' & E0).
    destruct (same_widths_row_fwd _ _ _ _ Sc Hr) as (row' & Hr' & Er).
    destruct (same_widths_row_fwd _ _ _ _ Sf Hf) as (frow' & Hf' & Ef).
    exists row0', row', frow'. splits; try assumption; lia.
Qed.

Lemma uniform_clearable t w y :
  rows_w (Content t) w -> rows_w (Formats t) w ->
  len (Formats t) = len (Content t) -> 0 <= y ->
  clearable t y.
Proof.
  intros Rc Rf Hl Hy.
  destruct (decide (len (Content t) <= y)) as [Hge|Hlt]; [now left | right].
  destruct (len_lookup (Content t) 0) as (row0 & H0); [lia |].
  destruct (len_lookup (Content t) y) as (row & Hr); [lia |].
  destruct (len_lookup (Formats t) y) as (frow & Hf); [lia |].
  exists row0, row, frow. splits; try assumption.
  - pose proof (Rc _ _ H0). pose proof (Rc _ _ Hr). unfold len in *. lia.
  - pose proof (Rc _ _ H0). pose proof (Rf _ _ Hf). unfold len in *. lia.
Qed.

Lemma clear_returns t y x :
  0 <= y -> 0 <= x -> clearable t y -> exists t', clear t y x = Ret t'.
Proof.
  intros Hy Hx [Hge|(row0 & row & frow & H0 & Hr & Hf & L1 & L2)].
  - exists t. apply clear_rows_above. lia.
  - destruct (decide (x >= len row0)) as [Hxge|Hxlt].
    + exists t. now apply (clear_cols_above t y x row0).
    + eexists. apply (clear_Ret t y x row0 row frow); try assumption;
        unfold len in *; lia.
Qed.

Lemma clear_run_returns (fy : VT100 -> Z) t y lo hi :
  0 <= y -> 0 <= lo ->
  (forall t', cells_only t t' -> fy t' = y) ->
  clearable t y ->
  exists t', for_below lo hi (fun col v => clear v (fy v) col) t = Ret t'.
Proof.
  intros Hy Hlo Hfy Hc.
  destruct (for_below_total (fun _ t' => cells_only t t')
              (fun col v => clear v (fy v) col) lo hi t) as (t' & E & _).
  - apply cells_only_refl.
  - intros j u Hj Hu. rewrite (Hfy u Hu).
    destruct (clear_returns u y j) as (u' & Eu); [lia | lia | |].
    { eapply clearable_cells_only; eassumption. }
    exists u'. split; [exact Eu |].
    eapply cells_only_trans; [exact Hu |]. now apply clear_ret in Eu.
  - eauto.
Qed.

Lemma int_add_id a b : in_int (a + b) -> int_add a b = a + b.
Proof. apply wrap_id. Qed.

Lemma grow_row_returns v j t0 :
  resizing v (Height v + j) 0 (Width v) (Width v) t0 ->
  0 <= j -> 0 <= Height v -> 0 <= Width v -> Height v + j <= max_int ->
  exists t', grow_row j t0 = Ret t'.
Proof.
  intros Ht Hj HH HW Hmax.
  pose proof (resizing_shape _ _ _ _ _ Ht) as (Rc & Rf).
  destruct Ht as (Fr & L1 & L2 & _). pose proof Fr as (F1 & F2 & _).
  simpl. rewrite (make_Ret (0 : rune)) by lia. simpl.
  rewrite (make_Ret Format0) by lia. simpl.
  apply (clear_run_returns (fun v0 => int_add (Height v0) j) _ (Height v + j));
    try lia.
  - intros t' ((E & _) & _). rewrite E. simpl. rewrite F1.
    apply int_add_id. unfold in_int, min_int, max_int in *. lia.
  - apply (uniform_clearable _ (Width v)); simpl; try lia.
    + apply rows_w_snoc; [assumption | rewrite len_replicate; lia].
    + apply rows_w_snoc; [assumption | rewrite len_replicate; lia].
    + unfold len in *. rewrite !length_app. simpl. lia.
Qed.

Lemma widen_row_returns v w j t0 :
  resizing v (Height v) j w (Width v) t0 ->
  0 <= j < Height v -> Width v < w ->
  exists t', widen_row w j t0 = Ret t'.
Proof.
  intros (Fr & L1 & L2 & Wc & Wf) Hj Hw. pose proof Fr as (F1 & F2 & _).
  destruct (len_lookup (Content t0) j) as (old & Hold); [lia |].
  destruct (len_lookup (Formats t0) j) as (oldF & HoldF); [lia |].
  assert (len old = Width v) as Lold
    by (rewrite (Wc _ _ Hold); apply decide_False; lia).
  assert (0 <= Width v) as HW by (unfold len in Lold; lia).
  cbv zeta. rewrite (make_Ret (0 : rune)) by lia. simpl.
  rewrite (index_Ret _ j old) by (assumption || lia). simpl.
  rewrite store_Ret by lia. simpl.
  rewrite (make_Ret Format0) by lia. simpl.
  rewrite (index_Ret _ j oldF) by (assumption || lia). simpl.
  rewrite store_Ret by lia. simpl.
  apply (clear_run_returns (fun _ => j) _ j); try lia.
  right. simpl.
  set (row := copy (replicate (Z.to_nat w) 0) old).
  set (frow := copy (replicate (Z.to_nat w) Format0) oldF).
  assert (length row = Z.to_nat w) as Lr
    by (subst row; now rewrite length_copy, length_replicate).
  assert (length frow = Z.to_nat w) as Lf
    by (subst frow; now rewrite length_copy, length_replicate).
  destruct (decide (j = 0)) as [->|Hne].
  - exists row, row, frow.
    rewrite !list_lookup_insert_eq by (unfold len in *; lia).
    splits; try reflexivity; unfold rune in *; lia.
  - destruct (len_lookup (Content t0) 0) as (row0 & H0); [lia |].
    assert (len row0 = w) as L0
      by (rewrite (Wc _ _ H0); apply decide_True; lia).
    exists row0, row, frow.
    rewrite list_lookup_insert_ne by lia.
    rewrite !list_lookup_insert_eq by (unfold len in *; lia).
    splits; try reflexivity; try assumption; unfold len, rune in *; lia.
Qed.

Lemma narrow_row_returns v w j t0 :
  resizing v (Height v) j w (Width v) t0 ->
  0 <= j < Height v -> 0 <= w < Width v ->
  exists t', narrow_row w j t0 = Ret t'.
Proof.
  intros (Fr & L1 & L2 & Wc & Wf) Hj Hw.
  destruct (len_lookup (Content t0) j) as (old & Hold); [lia |].
  destruct (len_lookup (Formats t0) j) as (oldF & HoldF); [lia |].
  assert (len old = Width v) as Lold
    by (rewrite (Wc _ _ Hold); apply decide_False; lia).
  assert (len oldF = Width v) as LoldF
    by (rewrite (Wf _ _ HoldF); apply decide_False; lia).
  cbv zeta. rewrite (index_Ret _ j old) by (assumption || lia). simpl.
  rewrite (slice_to_Ret old) by lia. simpl.
  rewrite store_Ret by lia. simpl.
  rewrite (index_Ret _ j oldF) by (assumption || lia). simpl.
  rewrite (slice_to_Ret oldF) by lia. simpl.
  rewrite store_Ret by lia. simpl. eauto.
Qed.

(** [resize] returns when the new dimensions are not negative and the
    new height is an [int]. *)
Lemma resize_returns v h w :
  shape v -> 0 <= h <= max_int -> 0 <= w -> 0 <= Width v ->
  exists v', resize v h w = Ret v'.
Proof.
  intros Hs Hh Hw HW. pose proof Hs as [H1 H2 H3 H4].
  assert (0 <= Height v) as HH0 by (unfold len in H1; lia).
  unfold resize.
  match goal with |- exists v', ?p1 ≫= _ = _ =>
    assert (exists v1, p1 = Ret v1) as (v1 & E1)
  end.
  { destruct (decide (h > Height v)) as [Hgt|Hle].
    - cbv zeta. rewrite int_sub_id
        by (unfold in_int, min_int, max_int in *; lia).
      destruct (for_below_total (fun i t =>
                  resizing v (Height v + i) 0 (Width v) (Width v) t)
                  grow_row 0 (h - Height v) v) as (t & Et & _).
      + rewrite Z.add_0_r. now apply resizing_start.
      + intros j t Hj Ht.
        destruct (grow_row_returns v j t Ht) as (t' & Et'); try lia.
        exists t'. split; [exact Et' |].
        apply (grow_row_ret v j t t'); [lia | assumption | assumption].
      + cbv zeta in Et. rewrite Et. simpl. eauto.
    - destruct (decide (h < Height v)) as [Hlt|Hge]; [| eauto].
      rewrite (slice_to_Ret (Content v)) by lia. simpl.
      rewrite (slice_to_Ret (Formats v)) by lia. simpl. eauto. }
  rewrite E1, bind_Ret_l. cbv zeta.
  apply (resize_height_ret v h v1 Hs) in E1; [| lia].
  destruct E1 as (S1 & HH1 & HW1 & HC1 & HM1 & Cf1).
  set (v1' := if decide (h < maxY v1) then set_maxY (int_sub h 1) v1 else v1).
  assert (shape v1' /\ Height v1' = h /\ Width v1' = Width v)
    as (S1' & HH1' & HW1').
  { subst v1'. destruct (decide (h < maxY v1)); simpl; splits; try assumption.
    destruct S1. split; assumption. }
  clearbody v1'. pose proof S1' as [K1 K2 K3 K4].
  match goal with |- exists v', ?p3 ≫= _ = _ =>
    assert (exists v2, p3 = Ret v2) as (v2 & E2)
  end.
  { rewrite K1.
    destruct (decide (w > Width v1')) as [Hgt|Hle].
    - destruct (for_below_total (fun i t =>
                  resizing v1' (Height v1') i w (Width v1') t)
                  (widen_row w) 0 (Height v1') v1') as (t & Et & _).
      + now apply resizing_start.
      + intros j t Hj Ht.
        destruct (widen_row_returns v1' w j t Ht) as (t' & Et'); try lia.
        exists t'. split; [exact Et' |].
        apply (widen_row_ret v1' w j t t'); [lia | assumption | assumption].
      + cbv zeta in Et. rewrite Et. simpl. eauto.
    - destruct (decide (w < Width v1')) as [Hlt|Hge]; [| eauto].
      destruct (for_below_total (fun i t =>
                  resizing v1' (Height v1') i w (Width v1') t)
                  (narrow_row w) 0 (Height v1') v1') as (t & Et & _).
      + now apply resizing_start.
      + intros j t Hj Ht.
        destruct (narrow_row_returns v1' w j t Ht) as (t' & Et'); try lia.
        exists t'. split; [exact Et' |].
        apply (narrow_row_ret v1' w j t t'); [lia | assumption | assumption].
      + cbv zeta in Et. rewrite Et. simpl. eauto. }
  rewrite E2, bind_Ret_l. eauto.
Qed.

Lemma store_run_returns {A} (a : A) hi (l : list A) :
  hi <= len l ->
  exists l', for_below 0 hi (fun i row => store row i a) l = Ret l'.
Proof.
  intros Hhi.
  destruct (for_below_total (fun _ t => length t = length l)
              (fun i row => store row i a) 0 hi l) as (l' & E & _);
    [reflexivity | | eauto].
  intros j t Hj Ht. rewrite store_Ret by (unfold len in *; lia).
  eexists. split; [reflexivity |]. now rewrite length_insert.
Qed.

(** [scrollOne] returns on a grid that has a row. *)
Lemma scrollOne_returns v :
  shape v -> 0 < Height v <= max_int -> exists v', scrollOne v = Ret v'.
Proof.
  intros [H1 H2 H3 H4] HH. unfold scrollOne.
  destruct (len_lookup (Content v) 0) as (first & H0); [lia |].
  destruct (len_lookup (Formats v) 0) as (firstF & HF0); [lia |].
  pose proof (H3 _ _ H0) as L0. pose proof (H4 _ _ HF0) as LF0.
  rewrite (index_Ret _ 0 first) by (assumption || lia). rewrite bind_Ret_l.
  destruct (store_run_returns space (len first) first) as (first' & E1); [lia |].
  rewrite E1, bind_Ret_l. apply store_run_length in E1.
  rewrite int_sub_1 by lia.
  rewrite store_Ret by (unfold len in *; rewrite length_copy; lia).
  rewrite bind_Ret_l. cbv zeta. simpl.
  rewrite (index_Ret _ 0 firstF) by (assumption || lia). rewrite bind_Ret_l.
  destruct (store_run_returns Format0 (len first') firstF) as (firstF' & E2);
    [unfold len in *; lia |].
  rewrite E2, bind_Ret_l. rewrite !int_sub_1 by lia.
  rewrite store_Ret by (unfold len in *; rewrite length_copy; lia).
  rewrite bind_Ret_l. eauto.
Qed.

(** [put] returns when the cursor row is not negative and the column
    is on the grid, or one past it with automatic widening on. *)
Lemma put_returns v r :
  shape v -> 0 < Height v <= max_int -> 0 < Width v < max_int ->
  0 <= Y (Cur v) < max_int -> column_ok v (Cur v) ->
  exists v', put v r = Ret v'.
Proof.
  intros Hs HH HW HY [HX HA]. unfold put.
  set (v0 := if decide (Y (Cur v) > maxY v) then set_maxY (Y (Cur v)) v else v).
  assert (shape v0 /\ Height v0 = Height v /\ Width v0 = Width v /\
          Cur v0 = Cur v /\ AutoResizeX v0 = AutoResizeX v)
    as (S0 & E1 & E2 & E3 & E4).
  { subst v0. destruct (decide (Y (Cur v) > maxY v)); simpl.
    - splits; try reflexivity. destruct Hs; split; assumption.
    - splits; try reflexivity. assumption. }
  clearbody v0.
  assert (int_add (Y (Cur v)) 1 = Y (Cur v) + 1) as EY
    by (apply int_add_id; unfold in_int, min_int, max_int in *; lia).
  assert (exists v1, scrollOrResizeYIfNeeded v0 = Ret v1 /\ shape v1 /\
            Width v1 = Width v /\ 0 < Height v1 <= max_int /\
            0 <= Y (Cur v1) < Height v1 /\ 0 <= X (Cur v1) <= Width v /\
            (X (Cur v1) = Width v -> AutoResizeX v = true) /\
            AutoResizeX v1 = AutoResizeX v)
    as (v1 & R1 & S1 & W1 & HH1 & Y1 & X1 & A1 & F1).
  { unfold scrollOrResizeYIfNeeded. rewrite E1, E3.
    destruct (decide (Y (Cur v) >= Height v)) as [Hge|Hlt].
    - destruct (AutoResizeY v0).
      + rewrite EY, E2.
        destruct (resize_returns v0 (Y (Cur v) + 1) (Width v)) as (v1 & R1);
          try assumption; try lia.
        exists v1. split; [exact R1 |].
        apply resize_ret in R1; [| assumption | unfold max_int in *; lia].
        destruct R1 as (S1 & -> & -> & -> & _ & -> & _ & (_ & -> & _)).
        rewrite E3. splits; try assumption; try reflexivity; try lia.
        * destruct (decide (X (Cur v) >= Width v));
            [rewrite int_sub_1 by lia |]; lia.
        * destruct (decide (X (Cur v) >= Width v));
            [rewrite int_sub_1 by lia |]; lia.
        * destruct (decide (X (Cur v) >= Width v));
            [rewrite int_sub_1 by lia; intros; lia | assumption].
      + destruct (scrollOne_returns v0) as (v1 & R1); [assumption | lia |].
        exists v1. split; [exact R1 |].
        apply scrollOne_ret in R1; [| assumption].
        destruct R1 as (S1 & -> & -> & -> & -> & _ & _ & (_ & -> & _)).
        rewrite E1, E2, E3, E4, int_sub_1 by lia.
        splits; try assumption; try reflexivity; lia.
    - exists v0. rewrite E1, E2, E3, E4.
      splits; try assumption; try reflexivity; lia. }
  rewrite R1, bind_Ret_l.
  assert (exists v2, resizeXIfNeeded v1 = Ret v2 /\ shape v2 /\
            0 <= Y (Cur v2) < Height v2 /\ 0 <= X (Cur v2) < Width v2)
    as (v2 & R2 & S2 & Y2 & X2).
  { unfold resizeXIfNeeded. rewrite F1, W1.
    assert (int_add (X (Cur v1)) 1 = X (Cur v1) + 1) as EX
      by (apply int_add_id; unfold in_int, min_int, max_int in *; lia).
    rewrite EX.
    destruct (decide (AutoResizeX v = true /\ X (Cur v1) + 1 >= Width v))
      as [[Ha Hge]|Hn].
    - destruct (resize_returns v1 (Height v1) (X (Cur v1) + 1)) as (v2 & R2);
        try assumption; try lia.
      exists v2. split; [exact R2 |].
      apply resize_ret in R2; [| assumption | lia].
      destruct R2 as (S2 & -> & -> & -> & _ & -> & _).
      rewrite decide_False by lia. splits; try assumption; lia.
    - exists v1. splits; try assumption; try reflexivity; try lia.
      destruct (AutoResizeX v) eqn:Ea.
      + destruct (decide (X (Cur v1) + 1 >= Width v)); [| lia].
        exfalso. apply Hn. auto.
      + destruct (decide (X (Cur v1) = Width v)) as [Hq|Hq]; [| lia].
        specialize (A1 Hq). discriminate. }
  rewrite R2, bind_Ret_l.
  destruct (shape_row v2 (Y (Cur v2)) S2 Y2) as (row & frow & Hr & Hf & Lr & Lf).
  pose proof (shape_rows v2 S2) as L1. pose proof (shape_frows v2 S2) as L2.
  rewrite (index_Ret _ _ row) by (assumption || lia). rewrite bind_Ret_l.
  rewrite store_Ret by lia. rewrite bind_Ret_l.
  rewrite store_Ret by lia. rewrite bind_Ret_l. cbv zeta. simpl.
  rewrite (index_Ret _ _ frow) by (assumption || lia). rewrite bind_Ret_l.
  rewrite store_Ret by lia. rewrite bind_Ret_l.
  rewrite store_Ret by lia. rewrite bind_Ret_l. eauto.
Qed.

Lemma eraseLines_returns v d :
  shape v -> 0 < Height v <= max_int -> 0 < Width v <= max_int ->
  0 <= Y (Cur v) < max_int ->
  exists v', eraseLines v d = Ret v'.
Proof.
  intros Hs HH HW HY. unfold eraseLines. rewrite !int_sub_1 by lia.
  repeat (match goal with |- context [decide ?P] => destruct (decide P) end;
          [match goal with |- exists v', eraseRegion ?v ?a ?b ?c ?e = _ =>
             destruct (eraseRegion_erases v a b c e) as (v' & E & _);
             try assumption; try lia; eauto
           end |]).
  eauto.
Qed.

Lemma eraseColumns_returns v d :
  shape v -> 0 < Width v <= max_int ->
  0 <= Y (Cur v) < max_int -> 0 <= X (Cur v) < max_int ->
  exists v', eraseColumns v d = Ret v'.
Proof.
  intros Hs HW HY HX. unfold eraseColumns. rewrite !int_sub_1 by lia.
  repeat (match goal with |- context [decide ?P] => destruct (decide P) end;
          [match goal with |- exists v', eraseRegion ?v ?a ?b ?c ?e = _ =>
             destruct (eraseRegion_erases v a b c e) as (v' & E & _);
             try assumption; try lia; eauto
           end |]).
  eauto.
Qed.

(** Every command returns on a terminal with at least one cell, whose
    cursor row is not negative and whose cursor column is on the grid,
    or one past it with automatic widening on. *)
Lemma display_returns v c :
  shape v -> 0 < Height v <= max_int -> 0 < Width v < max_int ->
  0 <= Y (Cur v) < max_int -> column_ok v (Cur v) ->
  exists v' e, display v c = Ret (v', e).
Proof.
  intros Hs HH HW HY HC. destruct c as [r|b|final ps]; simpl.
  - destruct (put_returns v r) as (v' & E); try assumption.
    rewrite E. simpl. eauto.
  - eauto.
  - unfold escape.
    repeat match goal with |- context [decide ?P] => destruct (decide P) end;
      eauto.
    + destruct (eraseLines_returns v (param ps 0 0)) as (v' & E);
        try assumption; try lia.
      rewrite E. simpl. eauto.
    + destruct HC as [HX _].
      destruct (eraseColumns_returns v (param ps 0 0)) as (v' & E);
        try assumption; try lia.
      rewrite E. simpl. eauto.
    + destruct (updateAttributes v ps). eauto.
Qed.

(** ** Commands, whenever they return *)

Lemma grid_kept_shape v v' : shape v -> grid_kept v v' -> shape v'.
Proof.
  intros [H1 H2 H3 H4] (E1 & E2 & E3 & E4 & _).
  split; rewrite ?E1, ?E2, ?E3, ?E4; assumption.
Qed.

Lemma control_grid_kept v b : grid_kept v (control v b).
Proof.
  destruct b; simpl; unfold backspace, home, grid_kept;
    repeat match goal with |- context [decide ?P] => destruct (decide P) end;
    simpl; tauto.
Qed.

Lemma updateAttributes_spec v ps :
  grid_kept v (fst (updateAttributes v ps)) /\
  Y (Cur (fst (updateAttributes v ps))) = Y (Cur v) /\
  X (Cur (fst (updateAttributes v ps))) = X (Cur v) /\
  savedCursor (fst (updateAttributes v ps)) = savedCursor v.
Proof.
  unfold updateAttributes.
  destruct (attributes _ _) as [f bad]. simpl. unfold grid_kept. simpl. tauto.
Qed.

(** The three ways in which a returning escape sequence acts: it moves
    the cursor or the saved cursor, it blanks cells, or it is rejected. *)
Lemma escape_ret v final ps v' e :
  escape v final ps = Ret (v', e) ->
  (grid_kept v v' /\ e = None /\ final <> 109) \/
  (cells_only v v' /\ e = None /\ (final = 74 \/ final = 75)) \/
  (final = 109 /\ (v', e) = updateAttributes v ps) \/
  (v' = v /\ e = Some (UnsupportedCommand final)).
Proof.
  unfold escape.
  repeat match goal with
  | |- context [decide ?P] => destruct (decide P)
  end; intros H.
  all: try (injection H as <- <-; left; splits;
            [unfold grid_kept, home, save, unsave; simpl; tauto
            | reflexivity | lia]).
  - apply bind_Ret in H. destruct H as (t & E & H). injection H as <- <-.
    right. left. split; [now apply eraseLines_ret in E | auto].
  - apply bind_Ret in H. destruct H as (t & E & H). injection H as <- <-.
    right. left. split; [now apply eraseColumns_ret in E | auto].
  - right. right. left. injection H as H. auto.
  - injection H as <- <-. right. right. right. auto.
Qed.

Lemma advance_shape v : shape v -> shape (advance v).
Proof.
  intros [H1 H2 H3 H4].
  destruct (advance_frame v) as (E1 & E2 & E3 & E4 & _).
  split; rewrite ?E1, ?E2, ?E3, ?E4; assumption.
Qed.

(** Whenever [display] returns, the grid has kept its shape, and the
    resize flags and the carry-over buffer are as they were. *)
Lemma display_ret v c v' e :
  shape v -> display v c = Ret (v', e) ->
  shape v' /\ AutoResizeY v' = AutoResizeY v /\
  AutoResizeX v' = AutoResizeX v /\ unparsed v' = unparsed v.
Proof.
  intros Hs H. destruct c as [r|b|final ps]; simpl in H.
  - apply bind_Ret in H. destruct H as (t & E & H). injection H as <- <-.
    apply put_ret in E; [| assumption].
    destruct E as (u & Su & (C1 & C2 & C3 & C4) & _ & _ & _ & _ & _ & ->).
    destruct (advance_frame (write_cell u (Z.to_nat (Y (Cur u)))
                (Z.to_nat (X (Cur u))) r (F (Cur u))))
      as (_ & _ & _ & _ & _ & (A1 & A2 & A3 & A4) & _).
    split; [apply advance_shape, write_cell_shape; assumption |].
    rewrite A1, A2, A4. simpl. auto.
  - injection H as <- <-.
    pose proof (control_grid_kept v b) as G.
    split; [eapply grid_kept_shape; eassumption |].
    destruct G as (_ & _ & _ & _ & ? & ? & ? & _). auto.
  - apply escape_ret in H.
    destruct H as [(G & _)|[(Ce & _)|[(_ & Hu)|(-> & _)]]].
    + split; [eapply grid_kept_shape; eassumption |].
      destruct G as (_ & _ & _ & _ & ? & ? & ? & _). auto.
    + split; [eapply cells_only_shape; eassumption |].
      destruct Ce as ((_ & _ & _ & ? & ? & _ & ? & _) & _). auto.
    + destruct (updateAttributes_spec v ps) as (G & _).
      rewrite <- Hu in G. simpl in G.
      split; [eapply grid_kept_shape; eassumption |].
      destruct G as (_ & _ & _ & _ & ? & ? & ? & _). auto.
    + auto.
Qed.

(** ** The cursor column *)

Lemma column_ok_kept v v' c :
  Width v' = Width v -> AutoResizeX v' = AutoResizeX v ->
  column_ok v c -> column_ok v' c.
Proof. unfold column_ok. intros -> ->. tauto. Qed.

Lemma column_ok_wider v v' c :
  Width v <= Width v' -> AutoResizeX v' = AutoResizeX v ->
  column_ok v c -> column_ok v' c.
Proof.
  unfold column_ok. intros Hw ->. intros [Hx Ha].
  split; [lia |]. intros Hq. apply Ha. lia.
Qed.

Lemma advance_column v :
  0 <= X (Cur v) < Width v -> Width v <= max_int ->
  column_ok (advance v) (Cur (advance v)).
Proof.
  intros Hx Hw. unfold advance.
  assert (int_add (X (Cur v)) 1 = X (Cur v) + 1) as E.
  { unfold int_add. apply wrap_id. unfold in_int, min_int, max_int in *. lia. }
  rewrite E. unfold column_ok.
  match goal with |- context [decide ?P] => destruct (decide P) as [[Hge Ha]|Hn] end;
    simpl in *.
  - split; [lia |]. intros; lia.
  - split; [lia |]. intros Hq.
    destruct (AutoResizeX v); [reflexivity |]. exfalso. apply Hn. split; [lia | reflexivity].
Qed.

Lemma tab_column x w :
  0 <= x <= w -> 0 < w <= max_int - tabstop ->
  let x' := int_mul (int_add (int_div x tabstop) 1) tabstop in
  0 <= (if decide (x' >= w) then int_sub w 1 else x') < w.
Proof.
  intros Hx Hw. unfold tabstop in *.
  assert (Z.quot x 4 = x / 4) as Eq by (apply Z.quot_div_nonneg; lia).
  pose proof (Z.div_mod x 4 ltac:(lia)) as Hdm.
  pose proof (Z.mod_pos_bound x 4 ltac:(lia)) as Hmod.
  assert (0 <= x / 4) as Hq by (apply Z.div_pos; lia).
  assert (int_div x 4 = x / 4) as E1.
  { unfold int_div. rewrite Eq. apply wrap_id.
    unfold in_int, min_int, max_int in *. lia. }
  assert (int_add (x / 4) 1 = x / 4 + 1) as E2.
  { unfold int_add. apply wrap_id. unfold in_int, min_int, max_int in *. lia. }
  assert (int_mul (x / 4 + 1) 4 = (x / 4 + 1) * 4) as E3.
  { unfold int_mul. apply wrap_id. unfold in_int, min_int, max_int in *. lia. }
  simpl. rewrite E1, E2, E3.
  destruct (decide ((x / 4 + 1) * 4 >= w)).
  - rewrite int_sub_1 by (unfold max_int in *; lia). lia.
  - lia.
Qed.

Lemma control_column v b :
  0 < Width v <= max_int - tabstop -> column_ok v (Cur v) ->
  column_ok v (Cur (control v b)).
Proof.
  intros Hw [Hx Ha]. unfold column_ok.
  assert (forall z, 0 <= z < Width v ->
            0 <= z <= Width v /\ (z = Width v -> AutoResizeX v = true)) as Hin
    by (intros; split; [lia | intros; lia]).
  destruct b; simpl.
  - unfold backspace.
    assert (int_sub (X (Cur v)) 1 = X (Cur v) - 1) as E.
    { unfold int_sub. apply wrap_id.
      unfold in_int, min_int, max_int, tabstop in *. lia. }
    rewrite E. simpl.
    destruct (decide (X (Cur v) - 1 < 0)); simpl.
    + destruct (decide (Y (Cur v) = 0)); simpl; apply Hin; [lia |].
      rewrite int_sub_1 by (unfold max_int, tabstop in *; lia). lia.
    + apply Hin. lia.
  - apply Hin. now apply tab_column.
  - apply Hin. lia.
  - apply Hin. lia.
Qed.

(** Whenever a command that does not set the column returns, the
    columns of the cursor and of the saved cursor are where they should
    be, if they were before. *)
Lemma column_kept v c v' e :
  shape v -> 0 < Width v <= max_int - tabstop ->
  column_ok v (Cur v) -> column_ok v (savedCursor v) ->
  sets_column c = false ->
  display v c = Ret (v', e) ->
  shape v' /\ 0 < Width v' /\
  column_ok v' (Cur v') /\ column_ok v' (savedCursor v').
Proof.
  intros Hs Hw Hc Hsc Hnot H.
  destruct (display_ret v c v' e Hs H) as (Hs' & _ & Hax & _).
  split; [assumption |].
  destruct c as [r|b|final ps]; simpl in H.
  - apply bind_Ret in H. destruct H as (t0 & E & H). injection H as <- <-.
    apply put_ret in E; [| assumption].
    destruct E as (t & St & (C1 & C2 & C3 & C4) & W1 & W2 & Hy & Hx & _ & ->).
    set (u := write_cell t _ _ _ _) in *.
    assert (Width u = Width t /\ Cur u = Cur t /\ savedCursor u = savedCursor t /\
            AutoResizeX u = AutoResizeX t) as (U1 & U2 & U3 & U4)
      by (subst u; simpl; tauto).
    destruct (advance_frame u) as (A1 & A2 & _ & _ & _ & (_ & A3 & A4 & _) & _).
    splits.
    + rewrite A2, U1. lia.
    + apply advance_column; rewrite ?U1, ?U2; [lia |].
      apply W2. unfold tabstop in Hw. lia.
    + rewrite A4, U3, C3.
      eapply (column_ok_wider v); [rewrite A2, U1; lia | congruence | assumption].
  - injection H as <- <-.
    destruct (control_grid_kept v b) as (_ & G2 & _ & _ & _ & G6 & _).
    assert (savedCursor (control v b) = savedCursor v) as Esv.
    { destruct b; simpl; unfold backspace, home;
        repeat match goal with |- context [decide ?P] => destruct (decide P) end;
        reflexivity. }
    splits.
    + rewrite G2. lia.
    + eapply (column_ok_kept v); [assumption | assumption |].
      now apply control_column.
    + rewrite Esv. eapply column_ok_kept; eassumption.
  - simpl in Hnot. rewrite !orb_false_iff in Hnot.
    destruct Hnot as (((N1 & N2) & N3) & N4).
    apply Z.eqb_neq in N1, N2, N3, N4.
    unfold escape in H.
    repeat match type of H with
    | context [decide ?P] => destruct (decide P); try lia
    end.
    + injection H as <- <-. splits; simpl; [lia | assumption | assumption].
    + injection H as <- <-. splits; simpl; [lia | assumption | assumption].
    + apply bind_Ret in H. destruct H as (t & E & H). injection H as <- <-.
      apply eraseLines_ret in E.
      destruct E as ((_ & F2 & F3 & _ & F5 & F6 & _) & _).
      splits; [lia | |]; rewrite ?F3, ?F6;
        eapply (column_ok_kept v); eassumption.
    + apply bind_Ret in H. destruct H as (t & E & H). injection H as <- <-.
      apply eraseColumns_ret in E.
      destruct E as ((_ & F2 & F3 & _ & F5 & F6 & _) & _).
      splits; [lia | |]; rewrite ?F3, ?F6;
        eapply (column_ok_kept v); eassumption.
    + destruct (updateAttributes_spec v ps)
        as ((_ & G2 & _ & _ & _ & G6 & _) & _ & GX & GS).
      injection H as H. rewrite H in *. simpl in *.
      splits; [lia | |].
      * destruct Hc as [Hx Ha]. split; rewrite GX, G2; [assumption |].
        rewrite G6. assumption.
      * rewrite GS. eapply (column_ok_kept v); eassumption.
    + injection H as <- <-. splits; simpl; [lia | assumption | assumption].
    + injection H as <- <-. splits; simpl; [lia | assumption | assumption].
    + injection H as <- <-. splits; [lia | assumption | assumption].
Qed.

(** C2, as amended.  The cursor-motion escapes CUF and CUB (final bytes
    C and D) add and subtract their count without looking at the grid,
    so the column can leave it.  Every other command except CUP (final
    bytes H and f) keeps the column where the claim wants it: on a
    well-shaped grid with at least one cell, not wider than the largest
    [int] less a tab stop, with the cursor row not negative and the
    columns of the cursor and of the saved cursor on the grid, or one
    past its last column with automatic widening on, the command
    returns and the two columns are again on the grid, or one past its
    last column with automatic widening on. *)
Theorem column_invariant v c :
  shape v -> 0 < Height v <= max_int -> 0 < Width v <= max_int - tabstop ->
  0 <= Y (Cur v) < max_int ->
  column_ok v (Cur v) -> column_ok v (savedCursor v) ->
  (forall ps,
     display v (Escape 67 ps)
     = Ret (home v (Y (Cur v)) (int_add (X (Cur v)) (count ps 0)), None) /\
     display v (Escape 68 ps)
     = Ret (home v (Y (Cur v)) (int_sub (X (Cur v)) (count ps 0)), None)) /\
  (sets_column c = false ->
   exists v' e, display v c = Ret (v', e) /\
     shape v' /\ 0 < Width v' /\
     column_ok v' (Cur v') /\ column_ok v' (savedCursor v')).
Proof.
  intros Hs HH HW HY Hc Hsc. split; [intros ps; split; reflexivity |].
  intros Hnot.
  destruct (display_returns v c) as (v' & e & E); try assumption.
  { unfold tabstop in HW. lia. }
  exists v', e. split; [exact E |]. eapply column_kept; eassumption.
Qed.

Lemma column_invariant_witness :
  exists v' e, display TestErase_terminal (PutRune 122) = Ret (v', e) /\
               column_ok v' (Cur v') /\ column_ok v' (savedCursor v').
Proof.
  destruct (column_invariant TestErase_terminal (PutRune 122))
    as (_ & H).
  - apply shapeb_shape. reflexivity.
  - simpl. unfold max_int. lia.
  - simpl. unfold max_int, tabstop. lia.
  - simpl. unfold max_int. lia.
  - unfold column_ok. simpl. lia.
  - unfold column_ok. simpl. lia.
  - destruct (H eq_refl) as (v' & e & E & _ & _ & Hc & Hs).
    exists v', e. auto.
Defined.

(** C2, the claim as stated fails: on the four columns of the terminal
    of [TestErase], with the cursor at column 2, "CSI 5 C" leaves the
    cursor at column 7 and "CSI 5 D" at column -3. *)
Lemma cursor_motion_counterexample :
  exists v1 v2,
    display TestErase_terminal (Escape 67 [Some 5]) = Ret (v1, None) /\
    display TestErase_terminal (Escape 68 [Some 5]) = Ret (v2, None) /\
    Width v1 = 4 /\ X (Cur v1) = 7 /\ Width v2 = 4 /\ X (Cur v2) = -3 /\
    ~ (0 <= X (Cur v1) <= Width v1) /\ ~ (0 <= X (Cur v2) <= Width v2).
Proof.
  exists (set_X 7 TestErase_terminal), (set_X (-3) TestErase_terminal).
  split; [reflexivity |]. split; [reflexivity |].
  simpl. splits; try reflexivity; lia.
Qed.

(** ** Errors *)

Lemma writeLoop_shape (Decode : list Z -> decoded) fuel v buf v' :
  shape v -> writeLoop Decode fuel v buf = Ret v' -> shape v'.
Proof.
  revert v buf. induction fuel as [|fuel IH]; intros v buf Hs H;
    destruct buf as [|b buf]; simpl in H; try (injection H as <-; assumption).
  - destruct (Decode (b :: buf)) as [c rest|rest]; [discriminate |].
    injection H as <-. destruct (decide _); [| assumption].
    destruct Hs. split; assumption.
  - destruct (Decode (b :: buf)) as [c rest|rest].
    + apply bind_Ret in H. destruct H as ([t e] & E & H).
      apply display_ret in E; [| assumption]. destruct E as (St & _).
      eapply IH; eassumption.
    + injection H as <-. destruct (decide _); [| assumption].
      destruct Hs. split; assumption.
Qed.

(** C5, as amended.  A command with an unsupported final byte is
    rejected and leaves the terminal as it was.  The only other error
    of [display] is that of an SGR sequence with unknown codes, which
    has applied the codes it knows: the cursor format is all it has
    changed.  A failure of the decoder in [Write] stops the call and
    touches only the carry-over buffer.  Whenever a command or a call
    of [Write] returns, with or without error and whatever the decoder,
    the grid still has [Height] rows of [Width] cells, runes and
    formats in parallel. *)
Theorem errors_keep_shape (Decode : list Z -> decoded) :
  (forall v c v' e,
     display v c = Ret (v', Some e) ->
     (exists final ps,
        c = Escape final ps /\ e = UnsupportedCommand final /\ v' = v) \/
     (exists ps codes,
        c = Escape 109 ps /\ e = UnknownAttributes codes /\
        v' = set_Cur (mkCursor (Y (Cur v)) (X (Cur v)) (F (Cur v'))) v)) /\
  (forall fuel v buf rest,
     buf <> [] -> Decode buf = DecodeErr rest ->
     writeLoop Decode fuel v buf =
     Ret (if decide (len rest > 0 /\ len rest < 12) then set_unparsed rest v
          else v)) /\
  (forall v c v' e, shape v -> display v c = Ret (v', e) -> shape v') /\
  (forall v dt v', shape v -> Write Decode v dt = Ret v' -> shape v').
Proof.
  splits.
  - intros v c v' e H. destruct c as [r|b|final ps]; simpl in H.
    + apply bind_Ret in H. destruct H as (t & _ & H). discriminate.
    + discriminate.
    + apply escape_ret in H.
      destruct H as [(_ & He & _)|[(_ & He & _)|[(-> & Hu)|(-> & He)]]];
        try discriminate.
      * right. unfold updateAttributes in Hu.
        destruct (attributes _ _) as [f bad].
        destruct bad as [|code bad]; [discriminate |].
        injection Hu as -> ->.
        exists ps, (code :: bad). splits; reflexivity.
      * left. injection He as ->. exists final, ps. auto.
  - intros fuel v buf rest Hne HD.
    destruct buf as [|b buf]; [congruence |].
    destruct fuel; simpl; rewrite HD; reflexivity.
  - intros v c v' e Hs H. now apply display_ret in H.
  - intros v dt v' Hs H. unfold Write in H.
    destruct (decide (len (unparsed v) > 0)).
    + eapply writeLoop_shape; [| exact H]. destruct Hs. split; assumption.
    + eapply writeLoop_shape; eassumption.
Qed.

Lemma errors_keep_shape_witness :
  (forall v' e,
     display TestErase_terminal (Escape 110 [Some 5]) = Ret (v', Some e) ->
     v' = TestErase_terminal) /\
  exists v', Write Decode TestErase_terminal [27; 91; 53; 110; 122] = Ret v' /\
             shape v' /\ cell v' 1 2 = Some (122, Format0).
Proof.
  destruct (errors_keep_shape Decode) as (Herr & _ & _ & Hwrite).
  split.
  - intros v' e H. destruct (Herr _ _ _ _ H) as [(f & ps & _ & _ & E)|(ps & codes & C & _)].
    + exact E.
    + discriminate C.
  - exists (set_X 3 (set_maxY 1 (write_cell TestErase_terminal 1 2 122 Format0))).
    split; [reflexivity |]. split; [| reflexivity].
    apply (Hwrite TestErase_terminal [27; 91; 53; 110; 122]).
    + apply shapeb_shape. reflexivity.
    + reflexivity.
Defined.

(** C5, the claim as stated fails: "CSI 1;99 m" is reported as an
    error for its unknown code 99, and yet it has made the cursor
    format bold; and a write that ends inside an escape sequence, which
    the decoder cannot decode, leaves its two bytes in the carry-over
    buffer. *)
Lemma error_changes_state_counterexample :
  let v' := set_Cur (mkCursor 1 2 (set_Intens Bold Format0)) TestErase_terminal in
  display TestErase_terminal (Escape 109 [Some 1; Some 99])
  = Ret (v', Some (UnknownAttributes [99])) /\
  v' <> TestErase_terminal /\
  Decode [27; 91] = DecodeErr [27; 91] /\
  Write Decode TestErase_terminal [27; 91]
  = Ret (set_unparsed [27; 91] TestErase_terminal) /\
  set_unparsed [27; 91] TestErase_terminal <> TestErase_terminal.
Proof.
  intros v'. subst v'. splits; try reflexivity;
    unfold TestErase_terminal, set_Cur, set_unparsed; simpl;
    intros H; discriminate H.
Qed.

(** ** The used height *)

(** C1 fails on the code.  On a terminal of one row and one column the
    bytes "ab" leave [maxY = 1] and a used height of 2 on a grid of
    height 1: [put] raises [maxY] to the cursor row before [scrollOne]
    brings that row back to the last row of the grid. *)
Theorem usedHeight_exceeds_height :
  exists v0 v,
    NewVT100 1 1 = Ret v0 /\
    (r ← Process v0 (PutRune 97); Process (fst r) (PutRune 98)) = Ret (v, None) /\
    Write Decode v0 [97; 98] = Ret v /\
    Height v = 1 /\ Content v = [[98]] /\ maxY v = 1 /\ UsedHeight v = 2 /\
    ~ (maxY v <= Height v - 1).
Proof.
  exists (mkVT100 1 1 [[32]] [[Format0]] Cursor0 false false Cursor0 [] (-1)).
  exists (mkVT100 1 1 [[98]] [[Format0]] (mkCursor 1 0 Format0) false false
                  Cursor0 [] 1).
  splits; try reflexivity. simpl. lia.
Qed.

(** C3 fails on the code.  Three runes on a terminal of three rows and
    one column leave [maxY = 2]; [resize] to two rows keeps the first
    two rows and also keeps [maxY = 2], where the claim wants 1: the
    clamp of [resize] tests [h < maxY], so it is skipped when [maxY]
    equals [h]. *)
Theorem resize_keeps_maxY_at_h :
  exists v v',
    (v ← NewVT100 3 1; v ← put v 97; v ← put v 98; put v 99) = Ret v /\
    Height v = 3 /\ maxY v = 2 /\
    resize v 2 1 = Ret v' /\
    Height v' = 2 /\ Content v' = take 2 (Content v) /\
    Formats v' = take 2 (Formats v) /\
    maxY v' = 2 /\ maxY v' <> 2 - 1 /\ UsedHeight v' = 3.
Proof.
  exists (mkVT100 3 1 [[97]; [98]; [99]] (replicate 3 [Format0])
                  (mkCursor 3 0 Format0) false false Cursor0 [] 2).
  exists (mkVT100 2 1 [[97]; [98]] (replicate 2 [Format0])
                  (mkCursor 3 0 Format0) false false Cursor0 [] 2).
  splits; try reflexivity. simpl. lia.
Qed.

(** ** The carry-over buffer *)

Lemma for_below_unparsed body lo hi (s s' : VT100) :
  (forall j t t', body j t = Ret t' -> unparsed t' = unparsed t) ->
  for_below lo hi body s = Ret s' -> unparsed s' = unparsed s.
Proof.
  intros Hbody.
  apply (for_below_ret (fun _ t => unparsed t = unparsed s) body);
    [reflexivity |].
  intros j t t' _ Ht Hb. rewrite <- Ht. eauto.
Qed.

Lemma clear_unparsed v y x v' :
  clear v y x = Ret v' -> unparsed v' = unparsed v.
Proof.
  intros H. apply clear_ret in H.
  now destruct H as ((_ & _ & _ & _ & _ & _ & ? & _) & _).
Qed.

Lemma clear_run_unparsed (fy : VT100 -> Z) v lo hi v' :
  for_below lo hi (fun col v => clear v (fy v) col) v = Ret v' ->
  unparsed v' = unparsed v.
Proof.
  apply for_below_unparsed. intros j t t'. apply clear_unparsed.
Qed.

(** No resize touches the carry-over buffer, whatever the grid. *)
Lemma resize_unparsed v h w v' :
  resize v h w = Ret v' -> unparsed v' = unparsed v.
Proof.
  unfold resize. intros H.
  apply bind_Ret in H. destruct H as (v1 & E1 & H). cbv zeta in H.
  apply bind_Ret in H. destruct H as (v2 & E2 & H). injection H as <-.
  assert (unparsed v1 = unparsed v) as U1.
  { destruct (decide (h > Height v)).
    - cbv zeta in E1. apply bind_Ret in E1. destruct E1 as (t & El & E1).
      injection E1 as <-. simpl. revert El. apply for_below_unparsed.
      intros j u u' Hb.
      apply bind_Ret in Hb. destruct Hb as (r & _ & Hb).
      apply bind_Ret in Hb. destruct Hb as (f & _ & Hb).
      apply (clear_run_unparsed (fun v0 => int_add (Height v0) j)) in Hb.
      exact Hb.
    - destruct (decide (h < Height v)).
      + invert_steps. now subst.
      + now injection E1 as <-. }
  set (v1' := if decide (h < maxY v1) then set_maxY (int_sub h 1) v1 else v1)
    in *.
  assert (unparsed v1' = unparsed v) as U1'
    by (subst v1'; destruct (decide (h < maxY v1)); simpl; assumption).
  clearbody v1'.
  assert (unparsed v2 = unparsed v) as U2.
  { rewrite <- U1'. destruct (decide (w > Width v1')).
    - apply bind_Ret in E2. destruct E2 as (t & El & E2).
      injection E2 as <-. simpl. revert El. apply for_below_unparsed.
      intros j u u' Hb.
      apply bind_Ret in Hb. destruct Hb as (row & _ & Hb).
      apply bind_Ret in Hb. destruct Hb as (old & _ & Hb).
      apply bind_Ret in Hb. destruct Hb as (c' & _ & Hb).
      apply bind_Ret in Hb. destruct Hb as (fmt & _ & Hb).
      apply bind_Ret in Hb. destruct Hb as (oldF & _ & Hb).
      apply bind_Ret in Hb. destruct Hb as (f' & _ & Hb).
      apply (clear_run_unparsed (fun _ => j)) in Hb. exact Hb.
    - destruct (decide (w < Width v1')).
      + apply bind_Ret in E2. destruct E2 as (t & El & E2).
        injection E2 as <-. simpl. revert El. apply for_below_unparsed.
        intros j u u' Hb.
        apply bind_Ret in Hb. destruct Hb as (old & _ & Hb).
        apply bind_Ret in Hb. destruct Hb as (row & _ & Hb).
        apply bind_Ret in Hb. destruct Hb as (c' & _ & Hb).
        apply bind_Ret in Hb. destruct Hb as (oldF & _ & Hb).
        apply bind_Ret in Hb. destruct Hb as (rowF & _ & Hb).
        apply bind_Ret in Hb. destruct Hb as (f' & _ & Hb).
        now injection Hb as <-.
      + now injection E2 as <-. }
  destruct (decide (X (Cur v2) >= Width v2)); simpl; assumption.
Qed.

Lemma scrollOne_unparsed v v' :
  scrollOne v = Ret v' -> unparsed v' = unparsed v.
Proof.
  unfold scrollOne. intros H.
  repeat (apply bind_Ret in H; destruct H as (? & _ & H); cbv zeta in H).
  now injection H as <-.
Qed.

Lemma advance_unparsed v : unparsed (advance v) = unparsed v.
Proof.
  unfold advance.
  match goal with |- context [decide ?P] => destruct (decide P) end;
    reflexivity.
Qed.

Lemma put_unparsed v r v' : put v r = Ret v' -> unparsed v' = unparsed v.
Proof.
  unfold put. intros H.
  set (v0 := if decide (Y (Cur v) > maxY v) then set_maxY (Y (Cur v)) v else v)
    in *.
  assert (unparsed v0 = unparsed v) as U0
    by (subst v0; destruct (decide (Y (Cur v) > maxY v)); reflexivity).
  clearbody v0.
  apply bind_Ret in H. destruct H as (v1 & E1 & H).
  apply bind_Ret in H. destruct H as (v2 & E2 & H).
  assert (unparsed v1 = unparsed v0) as U1.
  { unfold scrollOrResizeYIfNeeded in E1.
    destruct (decide (Y (Cur v0) >= Height v0)).
    - destruct (AutoResizeY v0);
        [now apply resize_unparsed in E1 | now apply scrollOne_unparsed in E1].
    - now injection E1 as <-. }
  assert (unparsed v2 = unparsed v1) as U2.
  { unfold resizeXIfNeeded in E2.
    destruct (decide (AutoResizeX v1 = true /\ int_add (X (Cur v1)) 1 >= Width v1)).
    - now apply resize_unparsed in E2.
    - now injection E2 as <-. }
  repeat (apply bind_Ret in H; destruct H as (? & _ & H); cbv zeta in H).
  injection H as <-. rewrite advance_unparsed. simpl. congruence.
Qed.

(** No command touches the carry-over buffer, whatever the grid. *)
Lemma display_unparsed v c v' e :
  display v c = Ret (v', e) -> unparsed v' = unparsed v.
Proof.
  intros H. destruct c as [r|b|final ps]; simpl in H.
  - apply bind_Ret in H. destruct H as (t & E & H). injection H as <- <-.
    now apply put_unparsed in E.
  - injection H as <- <-.
    now destruct (control_grid_kept v b) as (_ & _ & _ & _ & _ & _ & ? & _).
  - apply escape_ret in H.
    destruct H as [(G & _)|[(Ce & _)|[(_ & Hu)|(-> & _)]]].
    + now destruct G as (_ & _ & _ & _ & _ & _ & ? & _).
    + now destruct Ce as ((_ & _ & _ & _ & _ & _ & ? & _) & _).
    + destruct (updateAttributes_spec v ps) as (G & _).
      rewrite <- Hu in G. simpl in G.
      now destruct G as (_ & _ & _ & _ & _ & _ & ? & _).
    + reflexivity.
Qed.

(** ** Writing in two chunks *)

Lemma set_unparsed_nil v : unparsed v = [] -> set_unparsed [] v = v.
Proof. destruct v. simpl. now intros ->. Qed.

Lemma unparsed_set_unparsed u v : unparsed (set_unparsed u v) = u.
Proof. reflexivity. Qed.

Lemma set_unparsed_twice u u' v :
  set_unparsed u (set_unparsed u' v) = set_unparsed u v.
Proof. reflexivity. Qed.

Section WriteSplit.
Variable Decode : list Z -> decoded.

(** A command takes at least one byte from the buffer. *)
Hypothesis Decode_progress :
  forall buf c rest,
    Decode buf = DecodeOk c rest -> (length rest < length buf)%nat.

Lemma writeLoop_fuel f f' v buf :
  (length buf <= f)%nat -> (length buf <= f')%nat ->
  writeLoop Decode f v buf = writeLoop Decode f' v buf.
Proof.
  revert f' v buf. induction f as [|f IH]; intros f' v buf Hf Hf'.
  - destruct buf; [| simpl in Hf; lia]. now destruct f'.
  - destruct buf as [|b0 buf]; [now destruct f' |].
    destruct f' as [|f']; [simpl in Hf'; lia |].
    simpl. destruct (Decode (b0 :: buf)) as [c rest|rest] eqn:E;
      [| reflexivity].
    apply Decode_progress in E. simpl in E, Hf, Hf'.
    destruct (display v c) as [[t e]|p]; simpl; [| reflexivity].
    apply IH; lia.
Qed.

Lemma Write_loop v dt :
  Write Decode v dt =
  writeLoop Decode (length (unparsed v ++ dt)) (set_unparsed [] v)
            (unparsed v ++ dt).
Proof.
  unfold Write. destruct (decide (len (unparsed v) > 0)); [reflexivity |].
  assert (unparsed v = []) as E.
  { destruct (unparsed v); [reflexivity |]. unfold len in *. simpl in *. lia. }
  rewrite E. simpl. now rewrite set_unparsed_nil.
Qed.

Lemma writeLoop_split b buf :
  resumable Decode b buf ->
  forall f f' v,
    unparsed v = [] ->
    (length buf <= f)%nat -> (length (buf ++ b) <= f')%nat ->
    (v1 ← writeLoop Decode f v buf; Write Decode v1 b) =
    writeLoop Decode f' v (buf ++ b).
Proof.
  induction 1 as [|buf Hne HD Hlen|buf c rest Hne HD HDb Hres IH];
    intros f f' v Hu Hf Hf'.
  - assert (writeLoop Decode f v [] = Ret v) as -> by now destruct f.
    rewrite bind_Ret_l, Write_loop, Hu, (set_unparsed_nil v Hu).
    apply writeLoop_fuel; simpl in *; lia.
  - assert (writeLoop Decode f v buf = Ret (set_unparsed buf v)) as ->.
    { destruct buf as [|b0 buf]; [congruence |].
      destruct f; simpl; rewrite HD; rewrite decide_True; try reflexivity;
        unfold len in *; simpl in *; lia. }
    rewrite bind_Ret_l, Write_loop, unparsed_set_unparsed, set_unparsed_twice.
    rewrite (set_unparsed_nil v Hu).
    apply writeLoop_fuel; lia.
  - destruct buf as [|b0 buf]; [congruence |].
    pose proof (Decode_progress _ _ _ HD) as Hp.
    destruct f as [|f]; [simpl in Hf; lia |].
    destruct f' as [|f']; [simpl in Hf'; lia |].
    simpl. rewrite HD. change (b0 :: buf ++ b) with ((b0 :: buf) ++ b).
    rewrite HDb.
    destruct (display v c) as [[t e]|p] eqn:Ed; simpl; [| reflexivity].
    pose proof (display_unparsed v c t e Ed) as Hut.
    apply IH; try congruence.
    + simpl in *. lia.
    + rewrite length_app in *. simpl in *. lia.
Qed.

(** C6, as amended.  For every decoder whose commands take at least
    one byte, every terminal and all byte sequences [a] and [b]:
    writing [a] and then [b] gives the same outcome as
    writing [a ++ b], provided the run over the carry-over buffer and
    [a] can be resumed: each of its commands is decoded in the same
    way when [b] follows, and it ends with the buffer used up or with
    a failure of the decoder that took no byte and leaves fewer than
    12 bytes. *)
Theorem write_split v a b :
  resumable Decode b (unparsed v ++ a) ->
  (v1 ← Write Decode v a; Write Decode v1 b) = Write Decode v (a ++ b).
Proof.
  intros Hres. rewrite !Write_loop. rewrite app_assoc.
  apply writeLoop_split; try assumption; reflexivity.
Qed.
End WriteSplit.

(** ** The decoder takes bytes *)

Lemma ReadRune_progress buf r rest :
  ReadRune buf = Some (r, rest) -> (length rest < length buf)%nat.
Proof.
  unfold ReadRune. intros H.
  repeat case_match; simplify_eq; simpl; lia.
Qed.

Lemma scanParams_progress buf acc cur any c rest :
  scanParams buf acc cur any = Some (DecodeOk c rest) ->
  (length rest < length buf)%nat.
Proof.
  revert acc cur any. induction buf as [|b buf IH]; intros acc cur any H;
    simpl in H; [discriminate |].
  repeat case_match; simplify_eq; simpl;
    try (apply IH in H; lia); lia.
Qed.

Lemma skipEscape_progress buf c rest :
  skipEscape buf = Some (DecodeOk c rest) -> (length rest < length buf)%nat.
Proof.
  induction buf as [|b buf IH]; intros H; simpl in H; [discriminate |].
  case_match; simplify_eq; simpl; [lia |]. apply IH in H. lia.
Qed.

Lemma Decode_progress buf c rest :
  Decode buf = DecodeOk c rest -> (length rest < length buf)%nat.
Proof.
  unfold Decode. intros H.
  destruct (ReadRune buf) as [[r rest0]|] eqn:ER; [| discriminate].
  apply ReadRune_progress in ER.
  repeat case_match; simplify_eq; try lia.
  - destruct (scanParams _ _ _ _) as [[]|] eqn:ES; simpl in H; simplify_eq.
    apply scanParams_progress in ES. simpl in *. lia.
  - destruct (skipEscape _) as [[]|] eqn:ES; simpl in H; simplify_eq.
    apply skipEscape_progress in ES. simpl in *. lia.
Qed.

Lemma write_split_witness :
  let v := set_Cur Cursor0 TestErase_terminal in
  let a := [97; 27; 91; 51] in
  let b := [49; 109; 98] in
  exists v',
    (v1 ← Write Decode v a; Write Decode v1 b) = Ret v' /\
    Write Decode v (a ++ b) = Ret v' /\
    cell v' 0 1 = Some (98, set_Fg (ANSIColor 1) Format0).
Proof.
  intros v a b.
  assert ((v1 ← Write Decode v a; Write Decode v1 b) = Write Decode v (a ++ b))
    as E.
  { apply (write_split Decode Decode_progress v a b).
    - apply (resumable_step Decode b [97; 27; 91; 51] (PutRune 97) [27; 91; 51]);
        [discriminate | reflexivity | reflexivity |].
      apply resumable_stash; [discriminate | reflexivity |].
      unfold len. simpl. lia. }
  eexists. rewrite E. split; [reflexivity |]. split; reflexivity.
Defined.

(** C6, the claim as stated fails.  The two bytes of U+00E9 written one
    by one are read as two invalid encodings, each put as U+FFFD; written
    together they are one rune.  The decoder reports no failure in
    either run, so no residual is dropped. *)
Lemma split_rune_counterexample :
  let v := set_Cur Cursor0 TestErase_terminal in
  Decode [195] = DecodeOk (PutRune RuneError) [] /\
  Decode [169] = DecodeOk (PutRune RuneError) [] /\
  Decode [195; 169] = DecodeOk (PutRune 233) [] /\
  exists v2 v1,
    (t ← Write Decode v [195]; Write Decode t [169]) = Ret v2 /\
    Write Decode v ([195] ++ [169]) = Ret v1 /\
    cell v2 0 0 = Some (RuneError, Format0) /\
    cell v2 0 1 = Some (RuneError, Format0) /\
    cell v1 0 0 = Some (233, Format0) /\
    cell v1 0 1 = Some (98, TestErase_format) /\
    v2 <> v1.
Proof.
  intros v. splits; try reflexivity.
  eexists. eexists. split; [reflexivity |]. split; [reflexivity |].
  splits; try reflexivity. intros H. discriminate H.
Qed.
